(** * hot_news_bot: feed screening, event matching and publication

    A shallow embedding of [hot_news_bot/rss_parser.py],
    [hot_news_bot/events.py] and [hot_news_bot/publisher.py].

    Python values are modelled as follows.
    - [str] is [string]; [None]-able values are [option].
    - A naive [datetime] is the number of microseconds since
      0001-01-01T00:00:00, a [timedelta] a number of microseconds.
    - A [try] body is a computation in the monad [M]: it threads the
      number of clock reads made so far and ends in [Return] or [Raise].
    - [logger] calls append records to a log.
    - The SQLite tables behind [database.py] are lists of rows. *)

From Stdlib Require Import String Ascii List ZArith Lia Bool Arith.
Import ListNotations.

Local Open Scope string_scope.
Local Open Scope Z_scope.

(** ** Python strings *)

Module PyStr.

(** [s.startswith(p)] *)
Definition startswith (s p : string) : bool := String.prefix p s.

(** [needle in hay] for two strings. *)
Fixpoint contains (needle hay : string) : bool :=
  String.prefix needle hay ||
  match hay with
  | EmptyString => false
  | String _ hay' => contains needle hay'
  end.

(** [s.split(sep)] for a one-character separator: never an empty list. *)
Fixpoint split (sep : ascii) (s : string) : list string :=
  match s with
  | EmptyString => [EmptyString]
  | String c s' =>
      if Ascii.eqb c sep then EmptyString :: split sep s'
      else match split sep s' with
           | h :: t => String c h :: t
           | [] => [String c EmptyString]
           end
  end.

(** [sep.join(parts)] *)
Fixpoint join (sep : string) (parts : list string) : string :=
  match parts with
  | [] => EmptyString
  | [p] => p
  | p :: rest => p ++ sep ++ join sep rest
  end.

(** Character-wise image of a string. *)
Fixpoint map (f : ascii -> ascii) (s : string) : string :=
  match s with
  | EmptyString => EmptyString
  | String c s' => String (f c) (map f s')
  end.


(** Truth value of an optional string: [None] and the empty string are
    falsy. *)
Definition truthy (o : option string) : bool :=
  match o with
  | Some (String _ _) => true
  | _ => false
  end.

End PyStr.

(** ** [datetime] *)

Module Datetime.

Definition datetime := Z.
Definition timedelta := Z.

Definition us_per_second : Z := 1000000.
Definition us_per_day : Z := 86400 * us_per_second.

(** [timedelta(days=n)] *)
Definition timedelta_days (n : Z) : timedelta := n * us_per_day.

Definition is_leap (y : Z) : bool :=
  (y mod 4 =? 0) && (negb (y mod 100 =? 0) || (y mod 400 =? 0)).

Definition days_in_month (y m : Z) : Z :=
  if m =? 2 then (if is_leap y then 29 else 28)
  else if (m =? 4) || (m =? 6) || (m =? 9) || (m =? 11) then 30
  else 31.

Definition days_before_year (y : Z) : Z :=
  let p := y - 1 in p * 365 + p / 4 - p / 100 + p / 400.

Definition days_before_month (y m : Z) : Z :=
  fold_left Z.add
    (List.map (days_in_month y) (firstn (Z.to_nat (m - 1)) [1;2;3;4;5;6;7;8;9;10;11;12]))
    0.

(** Proleptic Gregorian ordinal: 0001-01-01 is day 1. *)
Definition ymd2ord (y m d : Z) : Z :=
  days_before_year y + days_before_month y m + d.

(** The first six items of a [time.struct_time]. *)
Record struct_time := {
  tm_year : Z; tm_mon : Z; tm_mday : Z;
  tm_hour : Z; tm_min : Z; tm_sec : Z
}.

Definition valid_fields (st : struct_time) : bool :=
  (1 <=? tm_year st) && (tm_year st <=? 9999) &&
  (1 <=? tm_mon st) && (tm_mon st <=? 12) &&
  (1 <=? tm_mday st) && (tm_mday st <=? days_in_month (tm_year st) (tm_mon st)) &&
  (0 <=? tm_hour st) && (tm_hour st <=? 23) &&
  (0 <=? tm_min st) && (tm_min st <=? 59) &&
  (0 <=? tm_sec st) && (tm_sec st <=? 59).

(** The [datetime] built from the six fields; [None] stands for the
    [ValueError] raised on fields out of range. *)
Definition of_struct_time (st : struct_time) : option datetime :=
  if valid_fields st then
    Some ((ymd2ord (tm_year st) (tm_mon st) (tm_mday st) - 1) * us_per_day
          + (tm_hour st * 3600 + tm_min st * 60 + tm_sec st) * us_per_second)
  else None.

End Datetime.

Import Datetime.

(** ** Exceptions and the monad of a [try] body *)

Inductive exn : Type :=
| AttributeError (attr : string)
| ValueError (what : string).

Inductive outcome (A : Type) : Type :=
| Return (a : A)
| Raise (e : exn).

Arguments Return {A} a.
Arguments Raise {A} e.

(** The wall clock: [clk k] is the value of the [k]-th call of
    [datetime.now()]. *)
Definition clock := nat -> datetime.

(** A computation reads the clock, and returns or raises. *)
Definition M (A : Type) : Type := nat -> outcome A * nat.

Definition ret {A} (a : A) : M A := fun t => (Return a, t).
Definition raise {A} (e : exn) : M A := fun t => (Raise e, t).
Definition bind {A B} (m : M A) (k : A -> M B) : M B :=
  fun t => match m t with
           | (Return a, t') => k a t'
           | (Raise e, t') => (Raise e, t')
           end.

Notation "x <- m ;; k" := (bind m (fun x => k))
  (at level 61, m at next level, right associativity).

(** [datetime.now()] *)
Definition datetime_now (clk : clock) : M datetime :=
  fun t => (Return (clk t), S t).

(** [obj.attr] on a [FeedParserDict]: a missing key raises. *)
Definition getattr {A} (name : string) (field : option A) : M A :=
  match field with
  | Some v => ret v
  | None => raise (AttributeError name)
  end.

(** ** Feed entries and articles *)

(** One item of [media_content] / [media_thumbnail]: a dict of XML
    attributes. *)
Record Media := { media_type : option string; media_url : option string }.

(** One item of [entry.links]. *)
Record Link := { link_type : option string; link_href : option string }.

(** A [feedparser] entry; a field is [None] when the key is absent. *)
Record Entry := {
  e_id : option string;
  e_link : option string;
  e_title : option string;
  e_summary : option string;
  e_published_parsed : option struct_time;
  e_updated_parsed : option struct_time;
  e_media_content : option (list Media);
  e_media_thumbnail : option (list Media);
  e_links : option (list Link)
}.

(** The dict returned by [parse_entry]. *)
Record Article := {
  art_id : string;
  art_title : string;
  art_summary : string;
  art_link : string;
  art_pub_date : datetime;
  art_source : string;
  art_image_url : option string
}.

(** [utils.clean_html] and [utils.remove_img_tags] are not part of the
    sources at hand; they are total string functions taken as a
    parameter. *)
Record Normalizer := {
  clean_html : string -> string;
  remove_img_tags : string -> string
}.

Definition plain_normalizer : Normalizer :=
  {| clean_html := fun s => s; remove_img_tags := fun s => s |}.

(** ** Log records *)

Inductive LogRecord : Type :=
| InfoFetching (feed_url : string)
| WarnBozo (feed_url : string) (bozo_exception : string)
| InfoAdded (title : string) (image_url : option string)
| InfoAlreadyPublished (title : string)
| WarnUnprocessed (feed_url : string)
| InfoFetched (count : nat) (feed_url : string)
| InfoParsing (title : string)
| InfoImageUrl (image_url : option string)
| ErrorParse (feed_url : string) (e : exn).

(** ** [rss_parser.parse_entry] *)

(** [d.get('type', '')] *)
Definition get_or_empty (o : option string) : string :=
  match o with Some s => s | None => EmptyString end.

(** The loop over [media_content]: the url of the first item whose type
    starts with [image/], whatever that url is. *)
Fixpoint first_image_media (ms : list Media) : option (option string) :=
  match ms with
  | [] => None
  | m :: rest =>
      if PyStr.startswith (get_or_empty (media_type m)) "image/"
      then Some (media_url m)
      else first_image_media rest
  end.

(** The loop over [entry.links]. *)
Fixpoint first_image_link (ls : list Link) : option (option string) :=
  match ls with
  | [] => None
  | l :: rest =>
      if PyStr.startswith (get_or_empty (link_type l)) "image/"
      then Some (link_href l)
      else first_image_link rest
  end.

(** Lines 84-89: [image_url] after the [media_content] block. *)
Definition image_after_media (entry : Entry) : option string :=
  match e_media_content entry with
  | Some ms => match first_image_media ms with
               | Some url => url
               | None => None
               end
  | None => None
  end.

(** Lines 90-93: the [media_thumbnail] block. *)
Definition image_after_thumbnail (entry : Entry) (image_url : option string) : option string :=
  if negb (PyStr.truthy image_url) then
    match e_media_thumbnail entry with
    | Some (th :: _) => media_url th
    | _ => image_url
    end
  else image_url.

(** Lines 94-98: the [links] block. *)
Definition image_after_links (entry : Entry) (image_url : option string) : option string :=
  if negb (PyStr.truthy image_url) then
    match e_links entry with
    | Some ls => match first_image_link ls with
                 | Some href => href
                 | None => image_url
                 end
    | None => image_url
    end
  else image_url.

(** Lines 83-98. *)
Definition extract_image_url (entry : Entry) : option string :=
  image_after_links entry (image_after_thumbnail entry (image_after_media entry)).

(** Line 67: [entry.get('id', entry.link)]; the default is evaluated
    first, so a missing link raises even when the id is present. *)
Definition entry_article_id (entry : Entry) : M string :=
  link <- getattr "link" (e_link entry) ;;
  ret (match e_id entry with Some i => i | None => link end).

(** Lines 72-76. *)
Definition entry_pub_date (clk : clock) (entry : Entry) : M datetime :=
  match (match e_published_parsed entry with
         | Some p => Some p
         | None => e_updated_parsed entry
         end) with
  | Some st =>
      match of_struct_time st with
      | Some d => ret d
      | None => raise (ValueError "datetime")
      end
  | None => datetime_now clk
  end.

(** The values bound by lines 67-76. *)
Record Derived := {
  d_id : string;
  d_title : string;
  d_summary : string;
  d_pub_date : datetime
}.

(** Lines 67-76. *)
Definition derive_fields (norm : Normalizer) (clk : clock) (entry : Entry) : M Derived :=
  article_id <- entry_article_id entry ;;
  raw_title <- getattr "title" (e_title entry) ;;
  let title := clean_html norm raw_title in
  let summary := match e_summary entry with
                 | Some s => clean_html norm (remove_img_tags norm s)
                 | None => EmptyString
                 end in
  pub_date <- entry_pub_date clk entry ;;
  ret {| d_id := article_id; d_title := title; d_summary := summary;
         d_pub_date := pub_date |}.

(** Line 79: [datetime.now() - pub_date > timedelta(days=7)]. *)
Definition older_than_week (now pub_date : datetime) : bool :=
  timedelta_days 7 <? now - pub_date.

(** The body of the [try] of [parse_entry]. *)
Definition parse_entry_body (norm : Normalizer) (clk : clock)
  (entry : Entry) (feed_url : string) : M (option Article) :=
  d <- derive_fields norm clk entry ;;
  now <- datetime_now clk ;;
  if older_than_week now (d_pub_date d) then ret None
  else
    let image_url := extract_image_url entry in
    link <- getattr "link" (e_link entry) ;;
    ret (Some {| art_id := d_id d; art_title := d_title d;
                 art_summary := d_summary d; art_link := link;
                 art_pub_date := d_pub_date d; art_source := feed_url;
                 art_image_url := image_url |}).

(** [parse_entry]: the [except] clause turns any exception into [None]
    and an error record. *)
Definition parse_entry (norm : Normalizer) (clk : clock)
  (entry : Entry) (feed_url : string) (t : nat)
  : option Article * list LogRecord * nat :=
  match parse_entry_body norm clk entry feed_url t with
  | (Return (Some a), t') =>
      (Some a, [InfoParsing (art_title a); InfoImageUrl (art_image_url a)], t')
  | (Return None, t') => (None, [], t')
  | (Raise e, t') => (None, [ErrorParse feed_url e], t')
  end.

(** ** The store behind [database.py] *)

(** A row of [published_articles]. *)
Record PublishedRow := {
  pub_article_id : string;
  pub_title : string;
  pub_published_at : string
}.

(** A row of [post_stats]. *)
Record PostStatsRow := {
  ps_message_id : Z;
  ps_post_time : datetime;
  ps_views : Z;
  ps_forwards : Z
}.

(** A row of [events], read by [get_relevant_events] as
    [(id, name, date, keywords)]; the date is a day ordinal and the
    keywords are one comma-separated string. *)
Record EventRow := {
  ev_id : Z;
  ev_name : string;
  ev_date : Z;
  ev_keywords : string
}.

Record Store := {
  published_articles : list PublishedRow;
  post_stats : list PostStatsRow;
  events : list EventRow;
  next_event_id : Z
}.

Definition empty_store : Store :=
  {| published_articles := []; post_stats := []; events := []; next_event_id := 1 |}.

(** Modelled from the spec: [database.is_article_published] is not in
    the sources; it is [isPublished(id)], true when the identifier
    already exists in PublishedRecord. *)
Definition is_article_published (st : Store) (article_id : string) : bool :=
  existsb (fun r => String.eqb (pub_article_id r) article_id) (published_articles st).

(** Modelled from the spec: [database.add_published_article] is not in
    the sources; it is [recordPublished(id, title, timestamp)], an
    append of one row. *)
Definition add_published_article (article_id title published_at : string) (st : Store) : Store :=
  {| published_articles := published_articles st ++
       [{| pub_article_id := article_id; pub_title := title;
           pub_published_at := published_at |}];
     post_stats := post_stats st;
     events := events st;
     next_event_id := next_event_id st |}.

(** Modelled from the spec: [database.log_post_stats] is not in the
    sources; at publish time it creates the PostStats row of a message,
    with no views and no forwards yet. *)
Definition log_post_stats (message_id : Z) (post_time : datetime) (st : Store) : Store :=
  {| published_articles := published_articles st;
     post_stats := post_stats st ++
       [{| ps_message_id := message_id; ps_post_time := post_time;
           ps_views := 0; ps_forwards := 0 |}];
     events := events st;
     next_event_id := next_event_id st |}.

(** Modelled from the spec: [database.add_event] is not in the sources;
    it is [insertEvent(event)]: the store assigns the identifier, and the
    keyword list is kept as the comma-separated string that
    [get_relevant_events] splits. *)
Definition add_event (name : string) (date : Z) (keywords : list string) (st : Store) : Store :=
  {| published_articles := published_articles st;
     post_stats := post_stats st;
     events := events st ++
       [{| ev_id := next_event_id st; ev_name := name; ev_date := date;
           ev_keywords := PyStr.join "," keywords |}];
     next_event_id := next_event_id st + 1 |}.

(** Modelled from the spec: [database.clear_old_data] is not in the
    sources; it is [purgeEventsOlderThan(days)]: every event older than
    [days] days is removed, the age being measured against the event's
    calendar date. *)
Definition clear_old_data (days : Z) (today : Z) (st : Store) : Store :=
  {| published_articles := published_articles st;
     post_stats := post_stats st;
     events := filter (fun r => today - ev_date r <=? days) (events st);
     next_event_id := next_event_id st |}.

(** Modelled from the spec: [database.get_today_events] is not in the
    sources; it is [eventsOnDate(date)] at today's date, in insertion
    order. *)
Definition get_today_events (today : Z) (st : Store) : list EventRow :=
  filter (fun r => ev_date r =? today) (events st).

(** ** [rss_parser.fetch_feed] *)

(** [l[:n]] *)
Definition slice_to {A} (n : Z) (l : list A) : list A :=
  if 0 <=? n then firstn (Z.to_nat n) l
  else firstn (List.length l - Z.to_nat (- n)) l.

(** The value of [feedparser.parse(feed_url)]. *)
Record Feed := {
  bozo : option string;
  entries : list Entry
}.

(** The variables of the loop of [fetch_feed]. *)
Record LoopState := {
  articles : list Article;
  log : list LogRecord;
  ticks : nat
}.

(** One iteration of the loop of [fetch_feed]. *)
Definition fetch_feed_step (norm : Normalizer) (clk : clock) (db : Store)
  (feed_url : string) (st : LoopState) (entry : Entry) : LoopState :=
  match parse_entry norm clk entry feed_url (ticks st) with
  | (Some article, plog, t') =>
      if negb (is_article_published db (art_id article)) then
        {| articles := articles st ++ [article];
           log := log st ++ plog ++
                  [InfoAdded (art_title article) (art_image_url article)];
           ticks := t' |}
      else
        {| articles := articles st;
           log := log st ++ plog ++ [InfoAlreadyPublished (art_title article)];
           ticks := t' |}
  | (None, plog, t') =>
      {| articles := articles st;
         log := log st ++ plog ++ [WarnUnprocessed feed_url];
         ticks := t' |}
  end.

(** The loop of [fetch_feed] over the inspected entries. *)
Definition fetch_feed_loop (norm : Normalizer) (clk : clock) (db : Store)
  (feed_url : string) (inspected : list Entry) (st : LoopState) : LoopState :=
  fold_left (fetch_feed_step norm clk db feed_url) inspected st.

(** [fetch_feed]; [feed] is what [feedparser.parse(feed_url)] returned,
    [ARTICLES_PER_FEED] the constant of [config]. The result is the list
    of admitted articles, the log, and the number of clock reads. *)
Definition fetch_feed (norm : Normalizer) (clk : clock) (db : Store)
  (ARTICLES_PER_FEED : Z) (feed_url : string) (feed : Feed) (t : nat)
  : list Article * list LogRecord * nat :=
  let log0 := InfoFetching feed_url ::
              match bozo feed with
              | Some ex => [WarnBozo feed_url ex]
              | None => []
              end in
  let st := fetch_feed_loop norm clk db feed_url
              (slice_to ARTICLES_PER_FEED (entries feed))
              {| articles := []; log := log0; ticks := t |} in
  (articles st,
   (log st ++ [InfoFetched (List.length (articles st)) feed_url])%list,
   ticks st).

(** *** The filter's decision on one entry

    [parse_entry] and [fetch_feed] signal a rejection by [None] and a log
    record. The three ways an entry is turned down are told apart by the
    branch taken: the [return None] of the freshness test, the [except]
    clause, and the [else] of the duplicate test. *)

Inductive reason : Type := stale | duplicate | malformed.

Inductive verdict : Type :=
| Accepted (a : Article)
| Rejected (r : reason).

Definition screen (norm : Normalizer) (clk : clock) (db : Store)
  (feed_url : string) (entry : Entry) (t : nat) : verdict :=
  match fst (parse_entry_body norm clk entry feed_url t) with
  | Raise _ => Rejected malformed
  | Return None => Rejected stale
  | Return (Some a) =>
      if is_article_published db (art_id a) then Rejected duplicate
      else Accepted a
  end.

(** ** [events.py] *)

(** A database call issued by [update_events]. *)
Inductive DbCall : Type :=
| ClearOldData (days : Z)
| AddEvent (name : string) (date : Z) (keywords : list string).

(** The dict built by [fetch_upcoming_events] for one listing block. *)
Record UpcomingEvent := {
  up_name : string;
  up_date : Z;
  up_keywords : list string
}.

(** The calls of [update_events], in program order; [new_events] is the
    list returned by [fetch_upcoming_events()]. *)
Definition update_events_calls (new_events : list UpcomingEvent) : list DbCall :=
  ClearOldData 30 ::
  List.map (fun event => AddEvent (up_name event) (up_date event) (up_keywords event))
           new_events.

(** The effect of one call on the store; [today] is the date the store
    sees during the cycle. *)
Definition exec_call (today : Z) (st : Store) (c : DbCall) : Store :=
  match c with
  | ClearOldData days => clear_old_data days today st
  | AddEvent name date keywords => add_event name date keywords st
  end.

(** [update_events()] *)
Definition update_events (today : Z) (new_events : list UpcomingEvent) (st : Store) : Store :=
  fold_left (exec_call today) (update_events_calls new_events) st.

(** The dict appended to [relevant_events]. *)
Record RelevantEvent := {
  rel_id : Z;
  rel_name : string;
  rel_date : Z;
  rel_keywords : list string
}.

(** *** [str.lower]

    A Python string is held as its UTF-8 bytes; on well-formed UTF-8 the
    substring test on bytes is the substring test on characters.

    [py_lower] is [str.lower] on the texts whose characters are ASCII,
    the Greek letters U+0391 to U+03A9 and U+03B1 to U+03C9, or the
    Cyrillic letters U+0400 to U+045F, with Python's rule for the capital
    sigma; any other character is left as it is. It serves the worked
    examples. The matcher itself takes [str.lower] as a parameter. *)

Module PyLower.

(** A decoded character, or a byte that is not part of a one- or
    two-byte sequence. *)
Inductive token : Type :=
| Cp (codepoint : N)
| Raw (byte : ascii).

Fixpoint utf8_decode (s : string) : list token :=
  match s with
  | EmptyString => []
  | String c rest =>
      let b := N_of_ascii c in
      if (b <? 128)%N then Cp b :: utf8_decode rest
      else if ((192 <=? b) && (b <? 224))%N then
        match rest with
        | String c2 rest' =>
            let b2 := N_of_ascii c2 in
            if ((128 <=? b2) && (b2 <? 192))%N
            then Cp ((b - 192) * 64 + (b2 - 128))%N :: utf8_decode rest'
            else Raw c :: utf8_decode rest
        | EmptyString => [Raw c]
        end
      else Raw c :: utf8_decode rest
  end.

Definition utf8_encode_token (t : token) : string :=
  match t with
  | Raw c => String c EmptyString
  | Cp n =>
      if (n <? 128)%N then String (ascii_of_N n) EmptyString
      else String (ascii_of_N (192 + n / 64)%N)
             (String (ascii_of_N (128 + n mod 64)%N) EmptyString)
  end.

Fixpoint utf8_encode (l : list token) : string :=
  match l with
  | [] => EmptyString
  | t :: rest => (utf8_encode_token t ++ utf8_encode rest)%string
  end.

Definition within (lo hi n : N) : bool := ((lo <=? n) && (n <=? hi))%N.

(** The lower-case mapping of one character. *)
Definition to_lower (n : N) : N :=
  if within 65 90 n then (n + 32)%N
  else if within 913 929 n || within 931 937 n then (n + 32)%N
  else if within 1040 1071 n then (n + 32)%N
  else if within 1024 1039 n then (n + 80)%N
  else n.

(** The property Cased. *)
Definition cased (t : token) : bool :=
  match t with
  | Cp n => within 65 90 n || within 97 122 n
            || within 913 929 n || within 931 937 n || within 945 969 n
            || within 1024 1119 n
  | Raw _ => false
  end.

(** The property Case_Ignorable: the apostrophe, the full stop, the
    colon, the circumflex and the grave accent. *)
Definition case_ignorable (t : token) : bool :=
  match t with
  | Cp n => (n =? 39)%N || (n =? 46)%N || (n =? 58)%N || (n =? 94)%N || (n =? 96)%N
  | Raw _ => false
  end.

Fixpoint first_not_ignorable (l : list token) : option token :=
  match l with
  | [] => None
  | t :: rest => if case_ignorable t then first_not_ignorable rest else Some t
  end.

(** A capital sigma is final when a cased character comes before it and
    none comes after it, case-ignorable characters being skipped. *)
Definition final_sigma (before_reversed after : list token) : bool :=
  match first_not_ignorable before_reversed with
  | Some t =>
      cased t && match first_not_ignorable after with
                 | Some u => negb (cased u)
                 | None => true
                 end
  | None => false
  end.

Fixpoint lower_tokens (before_reversed l : list token) : list token :=
  match l with
  | [] => []
  | t :: rest =>
      match t with
      | Raw _ => t
      | Cp n => if (n =? 931)%N
                then (if final_sigma before_reversed rest then Cp 962 else Cp 963)
                else Cp (to_lower n)
      end :: lower_tokens (t :: before_reversed) rest
  end.

Definition py_lower (s : string) : string :=
  utf8_encode (lower_tokens [] (utf8_decode s)).

End PyLower.

Section Matcher.

(** [str.lower], a parameter. *)
Variable lower : string -> string.

(** [keyword.lower() in article_content.lower()] *)
Definition keyword_occurs (article_content keyword : string) : bool :=
  PyStr.contains (lower keyword) (lower article_content).

(** [event[3].split(',')] *)
Definition event_keywords (event : EventRow) : list string :=
  PyStr.split "," (ev_keywords event).

Definition relevant_dict (event : EventRow) : RelevantEvent :=
  {| rel_id := ev_id event; rel_name := ev_name event;
     rel_date := ev_date event; rel_keywords := event_keywords event |}.

(** [get_relevant_events(article_content)]; [today_events] is the list
    returned by [get_today_events()]. *)
Definition get_relevant_events (today_events : list EventRow)
  (article_content : string) : list RelevantEvent :=
  fold_left
    (fun relevant_events event =>
       if existsb (keyword_occurs article_content) (event_keywords event)
       then (relevant_events ++ [relevant_dict event])%list
       else relevant_events)
    today_events [].

End Matcher.

(** ** [publisher.py] *)

Definition newline : string := String "010" EmptyString.

(** Modelled from the spec: [utils.escape_html] is not in the sources;
    it markup-escapes a text, replacing the three characters that start
    a tag or an entity. *)
Fixpoint escape_html (s : string) : string :=
  match s with
  | EmptyString => EmptyString
  | String c s' =>
      ((if Ascii.eqb c "&" then "&amp;"
        else if Ascii.eqb c "<" then "&lt;"
        else if Ascii.eqb c ">" then "&gt;"
        else String c EmptyString) ++ escape_html s')%string
  end.

(** [format_message(article)] *)
Definition format_message (article : Article) : string :=
  let message := ("<b>" ++ escape_html (art_title article) ++ "</b>" ++ newline ++ newline)%string in
  (message ++ escape_html (art_summary article))%string.

(** What [requests.head(url, timeout=5)] did. *)
Inductive head_result : Type :=
| HeadStatus (status_code : Z)
| HeadRequestException
| HeadOtherException.

(** What a [bot.send_photo] or [bot.send_message] call did. *)
Inductive send_result : Type :=
| Sent (message_id : Z)
| SendRequestException
| SendOtherException.

(** A message that reached the channel. *)
Inductive Delivery : Type :=
| Photo (channel_id photo caption : string)
| Message (channel_id text : string).

(** The collaborators of one call of [publish_to_telegram]. The
    [send_message] answers are numbered by attempt, since a failed
    attempt inside the inner [try] is followed by a second one. A store
    call either inserts its row or raises and leaves the store as it
    was. *)
Record Env := {
  requests_head : string -> head_result;
  send_photo : string -> string -> string -> send_result;
  send_message : nat -> string -> string -> send_result;
  log_post_stats_raises : bool;
  add_published_article_raises : bool;
  now : datetime;
  to_moscow_time : datetime -> datetime;
  strftime : datetime -> string
}.

(** The body of the inner [try]: a delivery, or the class of the
    exception and the number of [send_message] attempts made. *)
Inductive inner_result : Type :=
| InnerSent (message_id : Z) (d : Delivery)
| InnerRequestException (attempts : nat)
| InnerOtherException.

Definition try_send_photo (env : Env) (channel_id photo message : string) : inner_result :=
  match send_photo env channel_id photo message with
  | Sent mid => InnerSent mid (Photo channel_id photo message)
  | SendRequestException => InnerRequestException 0
  | SendOtherException => InnerOtherException
  end.

Definition try_send_message (env : Env) (attempt : nat) (channel_id message : string) : inner_result :=
  match send_message env attempt channel_id message with
  | Sent mid => InnerSent mid (Message channel_id message)
  | SendRequestException => InnerRequestException (S attempt)
  | SendOtherException => InnerOtherException
  end.

(** Lines 19-54: the delivery; [None] when an exception leaves the
    block. *)
Definition send_article (env : Env) (article : Article) (channel_id message : string)
  : option (Z * Delivery) :=
  if PyStr.truthy (art_image_url article) then
    let image_url := get_or_empty (art_image_url article) in
    let inner :=
      match requests_head env image_url with
      | HeadStatus status_code =>
          if status_code =? 200
          then try_send_photo env channel_id image_url message
          else try_send_message env 0 channel_id message
      | HeadRequestException => InnerRequestException 0
      | HeadOtherException => InnerOtherException
      end in
    match inner with
    | InnerSent mid d => Some (mid, d)
    | InnerRequestException attempts =>
        match try_send_message env attempts channel_id message with
        | InnerSent mid d => Some (mid, d)
        | _ => None
        end
    | InnerOtherException => None
    end
  else
    match try_send_message env 0 channel_id message with
    | InnerSent mid d => Some (mid, d)
    | _ => None
    end.

(** The outcome of [publish_to_telegram]. *)
Record Published := {
  pub_result : option Z;
  pub_store : Store;
  pub_delivery : option Delivery;
  pub_error_logged : bool
}.

(** [publish_to_telegram(bot, article, channel_id)] *)
Definition publish_to_telegram (env : Env) (article : Article) (channel_id : string)
  (st : Store) : Published :=
  let message := format_message article in
  match send_article env article channel_id message with
  | None =>
      {| pub_result := None; pub_store := st; pub_delivery := None;
         pub_error_logged := true |}
  | Some (message_id, d) =>
      let moscow_time := to_moscow_time env (now env) in
      if log_post_stats_raises env then
        {| pub_result := None; pub_store := st; pub_delivery := Some d;
           pub_error_logged := true |}
      else
        let st1 := log_post_stats message_id moscow_time st in
        if add_published_article_raises env then
          {| pub_result := None; pub_store := st1; pub_delivery := Some d;
             pub_error_logged := true |}
        else
          {| pub_result := Some message_id;
             pub_store := add_published_article (art_id article) (art_title article)
                            (strftime env moscow_time) st1;
             pub_delivery := Some d;
             pub_error_logged := false |}
  end.

(** ** Definitions used to state the properties *)

(** The articles one verdict contributes to the result of [fetch_feed]. *)
Definition accepted_of (v : verdict) : list Article :=
  match v with
  | Accepted a => [a]
  | Rejected _ => []
  end.

(** What each of the three image sources offers for an entry: the url
    of the first media item whose type is an image type, the url of the
    first thumbnail, the address of the first link whose type is an
    image type. Only the first such item of a source is looked at. *)
Definition is_image_type (type : option string) : bool :=
  match type with
  | Some t => String.prefix "image/" t
  | None => false
  end.

Definition source_media (entry : Entry) : option string :=
  match e_media_content entry with
  | Some ms => match find (fun m => is_image_type (media_type m)) ms with
               | Some m => media_url m
               | None => None
               end
  | None => None
  end.

Definition source_thumbnail (entry : Entry) : option string :=
  match e_media_thumbnail entry with
  | Some ths => match hd_error ths with
                | Some th => media_url th
                | None => None
                end
  | None => None
  end.

Definition source_links (entry : Entry) : option string :=
  match e_links entry with
  | Some ls => match find (fun l => is_image_type (link_type l)) ls with
               | Some l => link_href l
               | None => None
               end
  | None => None
  end.

(** The first of a list of candidates that is a usable reference. *)
Fixpoint first_truthy (candidates : list (option string)) : option string :=
  match candidates with
  | [] => None
  | c :: rest => if PyStr.truthy c then c else first_truthy rest
  end.

(** The image reference as the specification words it: three sources in
    priority order, first match wins. *)
Definition image_by_priority (entry : Entry) : option string :=
  first_truthy [source_media entry; source_thumbnail entry; source_links entry].


(** The lower-cased keyword is a substring of the lower-cased text. *)
Definition occurs_lowered (lower : string -> string) (keyword text : string) : Prop :=
  exists pre post, lower text = (pre ++ lower keyword ++ post)%string.


(** The test of the loop of [get_relevant_events] on one event. *)
Definition event_is_relevant (lower : string -> string) (text : string) (event : EventRow) : bool :=
  existsb (keyword_occurs lower text) (event_keywords event).


Definition is_empty (s : string) : bool :=
  match s with EmptyString => true | String _ _ => false end.

(** An event one of whose comma-separated keywords is the empty string. *)
Definition has_empty_keyword (event : EventRow) : bool :=
  existsb is_empty (event_keywords event).

(** [c] occurs in [s]. *)
Fixpoint mentions (c : ascii) (s : string) : bool :=
  match s with
  | EmptyString => false
  | String d s' => Ascii.eqb c d || mentions c s'
  end.

(** What the reader of a message sees of an escaped text: each of the
    three entities is shown as its character, any other character as
    itself. [skip] counts the characters of an entity still to pass. *)
Fixpoint render (skip : nat) (s : string) : string :=
  match s with
  | EmptyString => EmptyString
  | String c s' =>
      match skip with
      | S k => render k s'
      | O =>
          if String.prefix "&amp;" s then String "&" (render 4 s')
          else if String.prefix "&lt;" s then String "<" (render 3 s')
          else if String.prefix "&gt;" s then String ">" (render 3 s')
          else String c (render 0 s')
      end
  end.

(** The identifiers of the stored events are below the next one the
    store assigns. *)
Definition store_wf (st : Store) : Prop :=
  Forall (fun r => ev_id r < next_event_id st) (events st).

(** The rows a cycle inserts, the first with identifier [next]. *)
Fixpoint inserted_rows (next : Z) (new_events : list UpcomingEvent) : list EventRow :=
  match new_events with
  | [] => []
  | event :: rest =>
      {| ev_id := next; ev_name := up_name event; ev_date := up_date event;
         ev_keywords := PyStr.join "," (up_keywords event) |}
      :: inserted_rows (next + 1) rest
  end.

Definition is_add_event (c : DbCall) : bool :=
  match c with
  | AddEvent _ _ _ => true
  | ClearOldData _ => false
  end.

(** Sample data. *)

Definition fixed_clock (d : datetime) : clock := fun _ => d.

Definition jan_1_2024 : struct_time :=
  {| tm_year := 2024; tm_mon := 1; tm_mday := 1; tm_hour := 12; tm_min := 0; tm_sec := 0 |}.

Definition jan_11_2024 : struct_time :=
  {| tm_year := 2024; tm_mon := 1; tm_mday := 11; tm_hour := 12; tm_min := 0; tm_sec := 0 |}.

(** 2024-01-11T12:00:00 as a [datetime]. *)
Definition noon_jan_11 : datetime := 63840571200000000.

Definition sample_entry (published : option struct_time) : Entry :=
  {| e_id := Some "guid-1"; e_link := Some "http://example.com/1";
     e_title := Some "Premiere night"; e_summary := Some "Stars on the carpet";
     e_published_parsed := published; e_updated_parsed := None;
     e_media_content := None; e_media_thumbnail := None; e_links := None |}.

(** An entry with no [published_parsed] and an [updated_parsed] ten
    days before [noon_jan_11]. *)
Definition entry_updated_only : Entry :=
  {| e_id := Some "guid-3"; e_link := Some "http://example.com/3";
     e_title := Some "Old news"; e_summary := None;
     e_published_parsed := None; e_updated_parsed := Some jan_1_2024;
     e_media_content := None; e_media_thumbnail := None; e_links := None |}.

(** A clock that shows [noon_jan_11] at its first reading and eight days
    more at every later one. *)
Definition jumping_clock : clock :=
  fun k => match k with
           | O => noon_jan_11
           | S _ => noon_jan_11 + timedelta_days 8
           end.

(** An entry with an [image/jpeg] media item and a thumbnail. *)
Definition entry_with_media_and_thumbnail : Entry :=
  {| e_id := Some "guid-2"; e_link := Some "http://example.com/2";
     e_title := Some "Red carpet"; e_summary := None;
     e_published_parsed := Some jan_11_2024; e_updated_parsed := None;
     e_media_content :=
       Some [{| media_type := Some "video/mp4"; media_url := Some "http://example.com/v.mp4" |};
             {| media_type := Some "image/jpeg"; media_url := Some "http://example.com/a.jpg" |}];
     e_media_thumbnail :=
       Some [{| media_type := None; media_url := Some "http://example.com/t.jpg" |}];
     e_links := None |}.

(** An entry whose first image-typed media item has no url, whose
    second has one, and which has a thumbnail. *)
Definition entry_with_urlless_media : Entry :=
  {| e_id := None; e_link := Some "http://example.com/4";
     e_title := Some "Gala"; e_summary := None;
     e_published_parsed := None; e_updated_parsed := None;
     e_media_content :=
       Some [{| media_type := Some "image/png"; media_url := None |};
             {| media_type := Some "image/jpeg"; media_url := Some "http://example.com/b.jpg" |}];
     e_media_thumbnail :=
       Some [{| media_type := None; media_url := Some "http://example.com/t.jpg" |}];
     e_links := None |}.

(** A listing with one empty participant item, as [update_events] stores
    it. *)
Definition store_with_blank_star : Store :=
  add_event "Premiere: Heat" 738896 [EmptyString; "Heat"; "premiere"; "film"; "series"]
    empty_store.

Definition hanks_event : EventRow :=
  {| ev_id := 7; ev_name := "Premiere: Here"; ev_date := 738896;
     ev_keywords := "Tom Hanks,Here,premiere" |}.


(** A premiere announced sixty days ahead of day 738896. *)
Definition upcoming_heat : UpcomingEvent :=
  {| up_name := "Premiere: Heat"; up_date := 738956;
     up_keywords := ["Al Pacino"; "Heat"; "premiere"] |}.


Definition sample_article : Article :=
  {| art_id := "guid-1"; art_title := "<script>x</script>Breaking";
     art_summary := "A & B"; art_link := "http://example.com/1";
     art_pub_date := noon_jan_11; art_source := "feed";
     art_image_url := Some "http://example.com/a.jpg" |}.

(** Collaborators that all succeed: the image answers 200 and the photo
    is sent as message 501. *)
Definition env_ok : Env :=
  {| requests_head := fun _ => HeadStatus 200;
     send_photo := fun _ _ _ => Sent 501;
     send_message := fun _ _ _ => Sent 502;
     log_post_stats_raises := false;
     add_published_article_raises := false;
     now := noon_jan_11;
     to_moscow_time := fun d => d + 3 * 3600 * us_per_second;
     strftime := fun _ => "2024-01-11 15:00:00" |}.

(** Collaborators whose every send is refused by the platform. *)
Definition env_send_fails : Env :=
  {| requests_head := fun _ => HeadStatus 200;
     send_photo := fun _ _ _ => SendOtherException;
     send_message := fun _ _ _ => SendOtherException;
     log_post_stats_raises := false;
     add_published_article_raises := false;
     now := noon_jan_11;
     to_moscow_time := fun d => d + 3 * 3600 * us_per_second;
     strftime := fun _ => "2024-01-11 15:00:00" |}.

Definition store_with_guid_1 : Store :=
  add_published_article "guid-1" "Premiere night" "2024-01-02 10:00:00" empty_store.

(** ** [rss_parser.fetch_articles] *)

(** The log of a whole run: the records of [fetch_feed], and the two
    records of [fetch_articles]. *)
Inductive RunLog : Type :=
| FeedRecord (r : LogRecord)
| ErrorFeed (feed_url : string)
| InfoTotal (count : nat).

(** The variables of the loop of [fetch_articles]. *)
Record RunState := {
  run_articles : list Article;
  run_log : list RunLog;
  run_ticks : nat
}.

(** One iteration of the loop of [fetch_articles]. [feedparser_parse
    feed_url] is what [feedparser.parse(feed_url)] does inside
    [fetch_feed]: it returns a feed, or ([None]) raises, after the first
    record of [fetch_feed] was logged; the [except] clause then logs the
    error and the loop goes on. *)
Definition fetch_articles_step (norm : Normalizer) (clk : clock) (db : Store)
  (ARTICLES_PER_FEED : Z) (feedparser_parse : string -> option Feed)
  (st : RunState) (feed_url : string) : RunState :=
  match feedparser_parse feed_url with
  | Some feed =>
      match fetch_feed norm clk db ARTICLES_PER_FEED feed_url feed (run_ticks st) with
      | (feed_articles, feed_log, t') =>
          {| run_articles := run_articles st ++ feed_articles;
             run_log := run_log st ++ List.map FeedRecord feed_log;
             run_ticks := t' |}
      end
  | None =>
      {| run_articles := run_articles st;
         run_log := run_log st ++ [FeedRecord (InfoFetching feed_url); ErrorFeed feed_url];
         run_ticks := run_ticks st |}
  end.

(** [fetch_articles()]; [RSS_FEEDS] is the constant of [config]. *)
Definition fetch_articles (norm : Normalizer) (clk : clock) (db : Store)
  (ARTICLES_PER_FEED : Z) (RSS_FEEDS : list string)
  (feedparser_parse : string -> option Feed) (t : nat)
  : list Article * list RunLog * nat :=
  let st := fold_left
              (fetch_articles_step norm clk db ARTICLES_PER_FEED feedparser_parse)
              RSS_FEEDS
              {| run_articles := []; run_log := []; run_ticks := t |} in
  (run_articles st,
   (run_log st ++ [InfoTotal (List.length (run_articles st))])%list,
   run_ticks st).

(** ** [events.fetch_upcoming_events] *)

(** One element selected by [.ipc-metadata-list-item__content-container]
    as the loop reads it: the text of the nearest preceding [h3] ([None]
    when there is none), the text of the first list-content item ([None]
    when [select_one] finds nothing), and the texts of the inline list
    items. *)
Record Block := {
  blk_heading : option string;
  blk_title : option string;
  blk_stars : list string
}.

(** The library calls of the loop. [strptime_B_d s] is the month and day
    that the format [%B %d] reads in [s], [None] when [s] does not match
    it; [year_of d] is [d.year]; [strip] is [str.strip]. *)
Record Scraper := {
  strptime_B_d : string -> option (Z * Z);
  year_of : datetime -> Z;
  strip : string -> string
}.

(** The calendar date of valid fields as a day ordinal; [None] stands
    for the [ValueError] of the constructor. *)
Definition date_of_fields (y m d : Z) : option Z :=
  if valid_fields {| tm_year := y; tm_mon := m; tm_mday := d;
                     tm_hour := 0; tm_min := 0; tm_sec := 0 |}
  then Some (ymd2ord y m d) else None.

(** [datetime.strptime(date_str, '%B %d')]: the fields that are not in
    the format default to 1900-01-01T00:00:00, and the result is built
    by the [datetime] constructor. *)
Definition strptime_month_day (sc : Scraper) (date_str : string) : M (Z * Z) :=
  match strptime_B_d sc date_str with
  | None => raise (ValueError "strptime")
  | Some (m, d) =>
      match date_of_fields 1900 m d with
      | Some _ => ret (m, d)
      | None => raise (ValueError "day is out of range for month")
      end
  end.

(** [dt.replace(year=y).date()] *)
Definition replace_year_date (y m d : Z) : M Z :=
  match date_of_fields y m d with
  | Some ordinal => ret ordinal
  | None => raise (ValueError "replace")
  end.

Definition premiere_prefix : string := "Премьера: ".

Definition fixed_keywords : list string := ["премьера"; "фильм"; "сериал"].

(** The body of the inner [try]: [None] when the block has no heading,
    else the dict appended to [events]. *)
Definition parse_block (sc : Scraper) (clk : clock) (b : Block) : M (option UpcomingEvent) :=
  match blk_heading b with
  | None => ret None
  | Some heading =>
      let date_str := strip sc heading in
      md <- strptime_month_day sc date_str ;;
      now <- datetime_now clk ;;
      event_date <- replace_year_date (year_of sc now) (fst md) (snd md) ;;
      raw_title <- getattr "text" (blk_title b) ;;
      let title := strip sc raw_title in
      let stars := List.map (strip sc) (blk_stars b) in
      ret (Some {| up_name := (premiere_prefix ++ title)%string;
                   up_date := event_date;
                   up_keywords := (stars ++ title :: fixed_keywords)%list |})
  end.

Inductive EventsLog : Type :=
| ErrorBlock (e : exn)
| InfoEventCount (count : nat)
| ErrorPage.

(** The variables of the loop of [fetch_upcoming_events]. *)
Record ScrapeState := {
  sc_events : list UpcomingEvent;
  sc_log : list EventsLog;
  sc_ticks : nat
}.

(** One iteration of the loop over the selected elements. *)
Definition fetch_upcoming_events_step (sc : Scraper) (clk : clock)
  (st : ScrapeState) (b : Block) : ScrapeState :=
  match parse_block sc clk b (sc_ticks st) with
  | (Return (Some event), t') =>
      {| sc_events := sc_events st ++ [event]; sc_log := sc_log st; sc_ticks := t' |}
  | (Return None, t') =>
      {| sc_events := sc_events st; sc_log := sc_log st; sc_ticks := t' |}
  | (Raise e, t') =>
      {| sc_events := sc_events st; sc_log := sc_log st ++ [ErrorBlock e]; sc_ticks := t' |}
  end.

(** [fetch_upcoming_events()]; [page] is the list of elements selected
    from the fetched page, [None] when fetching or parsing the page
    raises. *)
Definition fetch_upcoming_events (sc : Scraper) (clk : clock)
  (page : option (list Block)) (t : nat)
  : list UpcomingEvent * list EventsLog * nat :=
  match page with
  | None => ([], [ErrorPage], t)
  | Some blocks =>
      let st := fold_left (fetch_upcoming_events_step sc clk) blocks
                  {| sc_events := []; sc_log := []; sc_ticks := t |} in
      (sc_events st,
       (sc_log st ++ [InfoEventCount (List.length (sc_events st))])%list,
       sc_ticks st)
  end.

(** What one block contributes when the clock reads year [y]. *)
Definition block_event (sc : Scraper) (y : Z) (b : Block) : list UpcomingEvent :=
  match blk_heading b, blk_title b with
  | Some heading, Some raw_title =>
      match strptime_B_d sc (strip sc heading) with
      | Some (m, d) =>
          if (1 <=? y) && (y <=? 9999) && (1 <=? m) && (m <=? 12)
             && (1 <=? d) && (d <=? days_in_month 1900 m)
          then [{| up_name := (premiere_prefix ++ strip sc raw_title)%string;
                   up_date := ymd2ord y m d;
                   up_keywords := (List.map (strip sc) (blk_stars b)
                                   ++ strip sc raw_title :: fixed_keywords)%list |}]
          else []
      | None => []
      end
  | _, _ => []
  end.

(** ** [publisher.create_article_keyboard] *)

Inductive Button : Type :=
| UrlButton (text url : string)
| CallbackButton (text callback_data : string).

(** An [InlineKeyboardMarkup]: its rows of buttons. *)
Definition InlineKeyboardMarkup := list (list Button).

(** [create_article_keyboard(article)] *)
Definition create_article_keyboard (article : Article) : InlineKeyboardMarkup :=
  [[UrlButton "Читать полностью" (art_link article)];
   [CallbackButton "👍" ("like_" ++ art_id article);
    CallbackButton "👎" ("dislike_" ++ art_id article)]].

(** The callback data a keyboard can send back. *)
Definition callback_data_of (kb : InlineKeyboardMarkup) : list string :=
  flat_map (fun row =>
              flat_map (fun b => match b with
                                 | CallbackButton _ data => [data]
                                 | UrlButton _ _ => []
                                 end) row) kb.

(** The records by which the loop of [fetch_feed] accounts for an
    entry. *)
Definition is_verdict_record (r : LogRecord) : bool :=
  match r with
  | InfoAdded _ _ | InfoAlreadyPublished _ | WarnUnprocessed _ => true
  | _ => false
  end.

Definition is_added_record (r : LogRecord) : bool :=
  match r with
  | InfoAdded _ _ => true
  | _ => false
  end.

(** A clock that does not move. *)
Definition stationary (clk : clock) : Prop := forall k, clk k = clk 0%nat.

(** The text and the channel of a delivery. *)
Definition delivery_body (d : Delivery) : string :=
  match d with
  | Photo _ _ caption => caption
  | Message _ text => text
  end.

Definition delivery_channel (d : Delivery) : string :=
  match d with
  | Photo channel_id _ _ => channel_id
  | Message channel_id _ => channel_id
  end.

(** More sample data. *)

Definition feed_of (es : list Entry) : Feed := {| bozo := None; entries := es |}.

(** A fetcher that reaches the feed [good] and fails on every other. *)
Definition sample_feedparser (feed_url : string) : option Feed :=
  if String.eqb feed_url "good" then Some (feed_of [sample_entry (Some jan_11_2024)])
  else None.

(** What one feed contributes to a run while the clock does not move. *)
Definition feed_articles (norm : Normalizer) (clk : clock) (db : Store)
  (ARTICLES_PER_FEED : Z) (feedparser_parse : string -> option Feed)
  (feed_url : string) : list Article :=
  match feedparser_parse feed_url with
  | Some feed =>
      flat_map (fun entry => accepted_of (screen norm clk db feed_url entry 0))
               (slice_to ARTICLES_PER_FEED (entries feed))
  | None => []
  end.

(** An entry with an id and no link. *)
Definition no_link_entry : Entry :=
  {| e_id := Some "guid-9"; e_link := None; e_title := Some "No link";
     e_summary := None; e_published_parsed := None; e_updated_parsed := None;
     e_media_content := None; e_media_thumbnail := None; e_links := None |}.

Definition leap_second : struct_time :=
  {| tm_year := 2024; tm_mon := 1; tm_mday := 11;
     tm_hour := 23; tm_min := 59; tm_sec := 60 |}.

(** An entry published on a leap second and updated at a usable time. *)
Definition leap_second_entry : Entry :=
  {| e_id := None; e_link := Some "http://example.com/5";
     e_title := Some "Leap second"; e_summary := None;
     e_published_parsed := Some leap_second;
     e_updated_parsed := Some jan_11_2024;
     e_media_content := None; e_media_thumbnail := None; e_links := None |}.

(** A scraper whose format reader knows two headings. *)
Definition sample_scraper : Scraper :=
  {| strptime_B_d := fun s =>
       if String.eqb s "March 14" then Some (3, 14)
       else if String.eqb s "February 29" then Some (2, 29)
       else None;
     year_of := fun _ => 2024;
     strip := fun s => s |}.

Definition heat_block : Block :=
  {| blk_heading := Some "March 14"; blk_title := Some "Heat";
     blk_stars := ["Al Pacino"; "Robert De Niro"] |}.

Definition leap_block : Block :=
  {| blk_heading := Some "February 29"; blk_title := Some "Leap";
     blk_stars := [] |}.

Definition untitled_block : Block :=
  {| blk_heading := Some "March 14"; blk_title := None; blk_stars := [] |}.

(** Collaborators whose image check fails on the network, the plain
    message then going out as message 502. *)
Definition env_head_fails : Env :=
  {| requests_head := fun _ => HeadRequestException;
     send_photo := fun _ _ _ => Sent 501;
     send_message := fun _ _ _ => Sent 502;
     log_post_stats_raises := false;
     add_published_article_raises := false;
     now := noon_jan_11;
     to_moscow_time := fun d => d + 3 * 3600 * us_per_second;
     strftime := fun _ => "2024-01-11 15:00:00" |}.

(** Collaborators that deliver the photo and then fail to record the
    article. *)
Definition env_record_fails : Env :=
  {| requests_head := fun _ => HeadStatus 200;
     send_photo := fun _ _ _ => Sent 501;
     send_message := fun _ _ _ => Sent 502;
     log_post_stats_raises := false;
     add_published_article_raises := true;
     now := noon_jan_11;
     to_moscow_time := fun d => d + 3 * 3600 * us_per_second;
     strftime := fun _ => "2024-01-11 15:00:00" |}.

(** ** Properties of [parse_entry] *)

Lemma of_struct_time_jan_11 : of_struct_time jan_11_2024 = Some noon_jan_11.
Proof. vm_compute. reflexivity. Qed.

Lemma bind_Return {A B} (m : M A) (k : A -> M B) t a t' :
  m t = (Return a, t') -> bind m k t = k a t'.
Proof. intros H. unfold bind. rewrite H. reflexivity. Qed.

Lemma bind_Raise {A B} (m : M A) (k : A -> M B) t e t' :
  m t = (Raise e, t') -> bind m k t = (Raise e, t').
Proof. intros H. unfold bind. rewrite H. reflexivity. Qed.

(** A computation that returned bound its first step to a value. *)
Lemma bind_inv {A B} (m : M A) (k : A -> M B) t b t2 :
  bind m k t = (Return b, t2) ->
  exists a t1, m t = (Return a, t1) /\ k a t1 = (Return b, t2).
Proof.
  unfold bind. destruct (m t) as [[a|e] t1]; intros H.
  - exists a, t1. split; [reflexivity | exact H].
  - discriminate H.
Qed.

Lemma getattr_inv {A} name (field : option A) t v t' :
  getattr name field t = (Return v, t') -> field = Some v /\ t' = t.
Proof.
  destruct field as [x|]; cbn; intros H; inversion H; subst; auto.
Qed.

(** When lines 67-76 succeed the entry has a link. *)
Lemma derive_fields_link norm clk entry t d t1 :
  derive_fields norm clk entry t = (Return d, t1) ->
  exists link, e_link entry = Some link.
Proof.
  unfold derive_fields, entry_article_id. intros H.
  apply bind_inv in H. destruct H as (i & t0 & H & _).
  apply bind_inv in H. destruct H as (link & t00 & H & _).
  apply getattr_inv in H. destruct H as [H _]. eauto.
Qed.

(** After lines 67-76 the body is the freshness test followed by the
    construction of the dict. *)
Lemma parse_entry_body_derived norm clk entry feed_url t d t1 :
  derive_fields norm clk entry t = (Return d, t1) ->
  exists link, e_link entry = Some link /\
  parse_entry_body norm clk entry feed_url t =
    if older_than_week (clk t1) (d_pub_date d) then (Return None, S t1)
    else (Return (Some {| art_id := d_id d; art_title := d_title d;
                          art_summary := d_summary d; art_link := link;
                          art_pub_date := d_pub_date d; art_source := feed_url;
                          art_image_url := extract_image_url entry |}), S t1).
Proof.
  intros H. destruct (derive_fields_link _ _ _ _ _ _ H) as [link Hl].
  exists link. split; [exact Hl|].
  unfold parse_entry_body. rewrite (bind_Return _ _ _ _ _ H).
  unfold bind at 1. cbn [datetime_now].
  destruct (older_than_week (clk t1) (d_pub_date d)); [reflexivity|].
  rewrite Hl. reflexivity.
Qed.

Lemma parse_entry_body_raise norm clk entry feed_url t e t1 :
  derive_fields norm clk entry t = (Raise e, t1) ->
  parse_entry_body norm clk entry feed_url t = (Raise e, t1).
Proof. intros H. unfold parse_entry_body. apply bind_Raise. exact H. Qed.

(** One iteration appends exactly what the verdict admits. *)
Lemma fetch_feed_step_articles norm clk db feed_url st entry :
  articles (fetch_feed_step norm clk db feed_url st entry) =
  (articles st ++ accepted_of (screen norm clk db feed_url entry (ticks st)))%list.
Proof.
  unfold fetch_feed_step, screen, parse_entry.
  destruct (parse_entry_body norm clk entry feed_url (ticks st)) as [[[a|]|e] t']; cbn.
  - destruct (is_article_published db (art_id a)); cbn; [rewrite app_nil_r|]; reflexivity.
  - rewrite app_nil_r; reflexivity.
  - rewrite app_nil_r; reflexivity.
Qed.

(** C2. Once lines 67-76 have derived [pub_date], an entry with
    [now - pub_date > 7 days] is rejected as stale: [parse_entry] returns
    [None] without an error record and the iteration of [fetch_feed]
    appends nothing to the admitted articles. An entry at most 7 days old
    is not rejected for staleness: [parse_entry] returns its article. *)
Theorem C2_stale_rejected_fresh_kept :
  forall norm clk db feed_url entry st d t1,
    derive_fields norm clk entry (ticks st) = (Return d, t1) ->
    (timedelta_days 7 < clk t1 - d_pub_date d ->
       parse_entry norm clk entry feed_url (ticks st) = (None, [], S t1) /\
       screen norm clk db feed_url entry (ticks st) = Rejected stale /\
       articles (fetch_feed_step norm clk db feed_url st entry) = articles st) /\
    (clk t1 - d_pub_date d <= timedelta_days 7 ->
       screen norm clk db feed_url entry (ticks st) <> Rejected stale /\
       exists a, fst (fst (parse_entry norm clk entry feed_url (ticks st))) = Some a /\
                 art_pub_date a = d_pub_date d).
Proof.
  intros norm clk db feed_url entry st d t1 Hd.
  destruct (parse_entry_body_derived norm clk entry feed_url _ _ _ Hd) as (link & Hl & Hb).
  split; intros Hage.
  - assert (Hw : older_than_week (clk t1) (d_pub_date d) = true)
      by (unfold older_than_week; apply Z.ltb_lt; exact Hage).
    rewrite Hw in Hb.
    assert (Hs : screen norm clk db feed_url entry (ticks st) = Rejected stale)
      by (unfold screen; rewrite Hb; reflexivity).
    repeat split.
    + unfold parse_entry. rewrite Hb. reflexivity.
    + exact Hs.
    + rewrite fetch_feed_step_articles, Hs. apply app_nil_r.
  - assert (Hw : older_than_week (clk t1) (d_pub_date d) = false)
      by (unfold older_than_week; apply Z.ltb_ge; exact Hage).
    rewrite Hw in Hb. split.
    + unfold screen. rewrite Hb. cbn.
      destruct (is_article_published db (d_id d)); discriminate.
    + eexists. unfold parse_entry. rewrite Hb. cbn. split; reflexivity.
Qed.

(** The scenario of the specification: an entry published ten days
    before the clock reading is stale. *)
Lemma C2_witness :
  let e := sample_entry (Some jan_1_2024) in
  let st := {| articles := []; log := []; ticks := 0 |} in
  parse_entry plain_normalizer (fixed_clock noon_jan_11) e "feed" 0 = (None, [], 1%nat) /\
  screen plain_normalizer (fixed_clock noon_jan_11) empty_store "feed" e 0 = Rejected stale /\
  articles (fetch_feed_step plain_normalizer (fixed_clock noon_jan_11) empty_store "feed" st e) = [].
Proof.
  intros e st.
  refine (proj1 (C2_stale_rejected_fresh_kept plain_normalizer (fixed_clock noon_jan_11)
            empty_store "feed" e st
            {| d_id := "guid-1"; d_title := "Premiere night";
               d_summary := "Stars on the carpet";
               d_pub_date := 63839707200000000 |} 0%nat _) _).
  - vm_compute. reflexivity.
  - vm_compute. reflexivity.
Defined.

(** Lines 67-76 on an entry that has a link and a title and whose
    publication time can be derived. *)
Lemma derive_fields_dated norm clk entry t link title d t1 :
  e_link entry = Some link ->
  e_title entry = Some title ->
  entry_pub_date clk entry t = (Return d, t1) ->
  exists dv, derive_fields norm clk entry t = (Return dv, t1) /\ d_pub_date dv = d.
Proof.
  intros Hl Ht Hpd. eexists.
  unfold derive_fields, entry_article_id, bind, getattr, ret.
  rewrite Hl, Ht. cbv beta iota. rewrite Hpd. split; reflexivity.
Qed.

(** Such an entry is stale when the clock read by the freshness test is
    more than 7 days after its publication time. *)
Lemma screen_stale_dated norm clk db feed_url entry t link title d t1 :
  e_link entry = Some link ->
  e_title entry = Some title ->
  entry_pub_date clk entry t = (Return d, t1) ->
  timedelta_days 7 < clk t1 - d ->
  screen norm clk db feed_url entry t = Rejected stale.
Proof.
  intros Hl Ht Hpd Hold.
  destruct (derive_fields_dated norm clk entry t link title d t1 Hl Ht Hpd)
    as (dv & Hd & Hdv).
  destruct (parse_entry_body_derived norm clk entry feed_url _ _ _ Hd) as (l & _ & Hb).
  unfold screen. rewrite Hb, Hdv.
  assert (Hw : older_than_week (clk t1) d = true)
    by (unfold older_than_week; apply Z.ltb_lt; exact Hold).
  rewrite Hw. reflexivity.
Qed.

(** C6, as stated, fails. An entry without [published_parsed] is dated
    by its [updated_parsed] when it has one, and is then rejected as
    stale if that time is ten days old: the current time is not
    substituted. And an entry with neither field is rejected as stale
    when the clock read by the freshness test is eight days after the
    clock reading that was substituted. *)
Lemma C6_counterexample :
  e_published_parsed entry_updated_only = None /\
  screen plain_normalizer (fixed_clock noon_jan_11) empty_store "feed"
         entry_updated_only 0 = Rejected stale /\
  e_published_parsed (sample_entry None) = None /\
  e_updated_parsed (sample_entry None) = None /\
  screen plain_normalizer jumping_clock empty_store "feed" (sample_entry None) 0
    = Rejected stale.
Proof. repeat split; vm_compute; reflexivity. Qed.

(** C6, amended. An entry with neither [published_parsed] nor
    [updated_parsed] gets the clock reading as its publication time;
    when the next clock reading, that of the freshness test, is at most
    7 days later it is not rejected as stale, and if its link and title
    are present its article carries that time; when that reading is more
    than 7 days later it is rejected as stale. An entry without
    [published_parsed] but with [updated_parsed] is dated by
    [updated_parsed], with no clock reading, and is rejected as stale
    when that time is more than 7 days before the freshness test. *)
Theorem C6_missing_date_defaults_to_now :
  forall norm clk db feed_url entry t,
    e_published_parsed entry = None ->
    (e_updated_parsed entry = None ->
       entry_pub_date clk entry t = (Return (clk t), S t) /\
       (clk (S t) - clk t <= timedelta_days 7 ->
          older_than_week (clk (S t)) (clk t) = false /\
          screen norm clk db feed_url entry t <> Rejected stale /\
          (forall link title, e_link entry = Some link -> e_title entry = Some title ->
             exists a, fst (fst (parse_entry norm clk entry feed_url t)) = Some a /\
                       art_pub_date a = clk t)) /\
       (timedelta_days 7 < clk (S t) - clk t ->
          forall link title, e_link entry = Some link -> e_title entry = Some title ->
            screen norm clk db feed_url entry t = Rejected stale)) /\
    (forall u d,
       e_updated_parsed entry = Some u ->
       of_struct_time u = Some d ->
       entry_pub_date clk entry t = (Return d, t) /\
       (timedelta_days 7 < clk t - d ->
          forall link title, e_link entry = Some link -> e_title entry = Some title ->
            screen norm clk db feed_url entry t = Rejected stale)).
Proof.
  intros norm clk db feed_url entry t Hp. split.
  - intros Hu.
    assert (Hpd : entry_pub_date clk entry t = (Return (clk t), S t))
      by (unfold entry_pub_date; rewrite Hp, Hu; reflexivity).
    split; [exact Hpd|]. split.
    + intros Hclk.
      assert (Hw : older_than_week (clk (S t)) (clk t) = false)
        by (unfold older_than_week; apply Z.ltb_ge; exact Hclk).
      split; [exact Hw|].
      destruct (derive_fields norm clk entry t) as [[d|e] t1] eqn:Hd.
      * assert (Hdd : d_pub_date d = clk t /\ t1 = S t).
        { unfold derive_fields in Hd.
          apply bind_inv in Hd. destruct Hd as (i & t0 & Hi & Hd).
          unfold entry_article_id in Hi.
          apply bind_inv in Hi. destruct Hi as (l & t00 & Hl & Hi).
          apply getattr_inv in Hl. destruct Hl as [_ ->].
          cbv [ret] in Hi. inversion Hi; subst t0.
          apply bind_inv in Hd. destruct Hd as (ti & t2 & Hti & Hd).
          apply getattr_inv in Hti. destruct Hti as [_ ->].
          apply bind_inv in Hd. destruct Hd as (pd & t3 & Hpd' & Hd).
          rewrite Hpd in Hpd'. inversion Hpd'; subst.
          cbv [ret] in Hd. inversion Hd; subst. cbn. auto. }
        destruct Hdd as [Hdp ->].
        destruct (parse_entry_body_derived norm clk entry feed_url _ _ _ Hd)
          as (link & Hl & Hb).
        rewrite Hdp, Hw in Hb. split.
        -- unfold screen. rewrite Hb. cbn.
           destruct (is_article_published db (d_id d)); discriminate.
        -- intros _ _ _ _. eexists. unfold parse_entry. rewrite Hb. cbn.
           split; reflexivity.
      * split.
        -- unfold screen. rewrite (parse_entry_body_raise _ _ _ _ _ _ _ Hd). discriminate.
        -- intros link title Hl Ht. exfalso.
           unfold derive_fields, entry_article_id, bind, getattr, ret in Hd.
           rewrite Hl, Ht in Hd. cbv beta iota in Hd. rewrite Hpd in Hd.
           discriminate.
    + intros Hjump link title Hl Ht.
      exact (screen_stale_dated norm clk db feed_url entry t link title _ _ Hl Ht Hpd Hjump).
  - intros u d Hu Hd.
    assert (Hpd : entry_pub_date clk entry t = (Return d, t))
      by (unfold entry_pub_date; rewrite Hp, Hu, Hd; reflexivity).
    split; [exact Hpd|].
    intros Hold link title Hl Ht.
    exact (screen_stale_dated norm clk db feed_url entry t link title _ _ Hl Ht Hpd Hold).
Qed.

Lemma C6_witness :
  exists a,
    fst (fst (parse_entry plain_normalizer (fixed_clock noon_jan_11)
                (sample_entry None) "feed" 0)) = Some a /\
    art_pub_date a = noon_jan_11.
Proof.
  refine (proj2 (proj2 (proj1 (proj2 (proj1 (C6_missing_date_defaults_to_now
            plain_normalizer (fixed_clock noon_jan_11) empty_store "feed"
            (sample_entry None) 0%nat eq_refl) eq_refl)) _))
            "http://example.com/1" "Premiere night" eq_refl eq_refl).
  vm_compute. discriminate.
Defined.

(** ** Properties of [fetch_feed] *)

Lemma screen_accepted_unpublished norm clk db feed_url entry t a :
  screen norm clk db feed_url entry t = Accepted a ->
  is_article_published db (art_id a) = false.
Proof.
  unfold screen.
  destruct (fst (parse_entry_body norm clk entry feed_url t)) as [[b|]|e]; try discriminate.
  destruct (is_article_published db (art_id b)) eqn:Hp; [discriminate|].
  intros H. inversion H; subst. exact Hp.
Qed.

(** [entry.get('id', entry.link)] reads no clock. *)
Lemma entry_article_id_ticks entry t :
  entry_article_id entry t =
  (fst (entry_article_id entry 0%nat), t).
Proof.
  unfold entry_article_id, bind, getattr, ret, raise.
  destruct (e_link entry); reflexivity.
Qed.

(** The identifier of an article is the one line 67 derived. *)
Lemma parse_entry_body_id norm clk entry feed_url t a t' :
  parse_entry_body norm clk entry feed_url t = (Return (Some a), t') ->
  fst (entry_article_id entry t) = Return (art_id a).
Proof.
  intros H. unfold parse_entry_body in H.
  apply bind_inv in H. destruct H as (d & t1 & Hd & H).
  assert (Hid : fst (entry_article_id entry t) = Return (d_id d)).
  { unfold derive_fields in Hd.
    apply bind_inv in Hd. destruct Hd as (i & t0 & Hi & Hd). rewrite Hi. cbn.
    apply bind_inv in Hd. destruct Hd as (ti & t2 & _ & Hd).
    apply bind_inv in Hd. destruct Hd as (pd & t3 & _ & Hd).
    cbv [ret] in Hd. inversion Hd; subst. reflexivity. }
  rewrite Hid. f_equal.
  apply bind_inv in H. destruct H as (nw & t2 & _ & H).
  destruct (older_than_week nw (d_pub_date d)).
  - cbv [ret] in H. inversion H.
  - apply bind_inv in H. destruct H as (l & t3 & _ & H).
    cbv [ret] in H. inversion H; subst. reflexivity.
Qed.

(** A property of all accepted verdicts holds of all articles of the
    loop. *)
Lemma fetch_feed_loop_Forall norm clk db feed_url (P : Article -> Prop) :
  (forall entry t a, screen norm clk db feed_url entry t = Accepted a -> P a) ->
  forall inspected st,
    Forall P (articles st) ->
    Forall P (articles (fetch_feed_loop norm clk db feed_url inspected st)).
Proof.
  intros HP inspected. induction inspected as [|e rest IH]; intros st Hst.
  - exact Hst.
  - cbn. apply IH. rewrite fetch_feed_step_articles.
    apply Forall_app. split; [exact Hst|].
    destruct (screen norm clk db feed_url e (ticks st)) eqn:Hs; cbn.
    + constructor; [eapply HP; exact Hs | constructor].
    + constructor.
Qed.

(** The loop admits at most one article per inspected entry. *)
Lemma fetch_feed_loop_length norm clk db feed_url inspected :
  forall st,
    (List.length (articles (fetch_feed_loop norm clk db feed_url inspected st))
     <= List.length (articles st) + List.length inspected)%nat.
Proof.
  induction inspected as [|e rest IH]; intros st.
  - cbn. lia.
  - cbn [fetch_feed_loop fold_left List.length].
    specialize (IH (fetch_feed_step norm clk db feed_url st e)).
    unfold fetch_feed_loop in IH.
    rewrite fetch_feed_step_articles, length_app in IH.
    assert (List.length (accepted_of (screen norm clk db feed_url e (ticks st))) <= 1)%nat
      by (destruct (screen norm clk db feed_url e (ticks st)); cbn; lia).
    lia.
Qed.

Lemma slice_to_app {A} (n : Z) (inspected beyond : list A) :
  0 <= n -> List.length inspected = Z.to_nat n ->
  slice_to n (inspected ++ beyond) = inspected.
Proof.
  intros Hn Hlen. unfold slice_to.
  destruct (0 <=? n) eqn:E; [|apply Z.leb_gt in E; lia].
  rewrite <- Hlen, firstn_app, Nat.sub_diag, firstn_all. cbn. apply app_nil_r.
Qed.

Lemma slice_to_exact {A} (n : Z) (inspected : list A) :
  0 <= n -> List.length inspected = Z.to_nat n ->
  slice_to n inspected = inspected.
Proof.
  intros Hn Hlen.
  rewrite <- (app_nil_r inspected) at 1. apply slice_to_app; assumption.
Qed.

Lemma slice_to_length {A} (n : Z) (l : list A) :
  0 <= n -> (List.length (slice_to n l) <= Z.to_nat n)%nat.
Proof.
  intros Hn. unfold slice_to.
  destruct (0 <=? n) eqn:E; [|apply Z.leb_gt in E; lia].
  apply firstn_le_length.
Qed.

Lemma slice_to_idem {A} (n : Z) (l : list A) :
  0 <= n -> slice_to n (slice_to n l) = slice_to n l.
Proof.
  intros Hn. unfold slice_to.
  destruct (0 <=? n) eqn:E; [|apply Z.leb_gt in E; lia].
  rewrite firstn_firstn, Nat.min_id. reflexivity.
Qed.

(** Every article of the loop passed the freshness test at some clock
    reading. *)
Lemma fetch_feed_articles_fresh norm clk db n feed_url feed t a :
  In a (fst (fst (fetch_feed norm clk db n feed_url feed t))) ->
  exists k, clk k - art_pub_date a <= timedelta_days 7.
Proof.
  unfold fetch_feed. cbn [fst]. revert a. apply Forall_forall.
  apply fetch_feed_loop_Forall; [|constructor].
  intros entry t0 a Hs. unfold screen in Hs.
  destruct (parse_entry_body norm clk entry feed_url t0) as [[[b|]|e] t2] eqn:Hb;
    cbn in Hs; try discriminate.
  destruct (is_article_published db (art_id b)); [discriminate|].
  inversion Hs; subst b. clear Hs.
  pose proof Hb as Hb'. unfold parse_entry_body in Hb'.
  apply bind_inv in Hb'. destruct Hb' as (d & t1 & Hd & _).
  destruct (parse_entry_body_derived norm clk entry feed_url _ _ _ Hd) as (link & _ & Hb2).
  rewrite Hb in Hb2. exists t1.
  destruct (older_than_week (clk t1) (d_pub_date d)) eqn:Hw; [discriminate|].
  inversion Hb2; subst. cbn. unfold older_than_week in Hw.
  apply Z.ltb_ge in Hw. exact Hw.
Qed.

(** A negative bound counts from the end, as Python slices do. *)
Example slice_to_negative : slice_to (-1) [1; 2; 3] = [1; 2].
Proof. reflexivity. Qed.

(** The published row of the sample store. *)
Lemma store_with_guid_1_published :
  is_article_published store_with_guid_1 "guid-1" = true.
Proof. reflexivity. Qed.

(** C1, as stated, fails: an entry whose identifier [guid-1] is already
    in PublishedRecord but whose publication time is ten days old is
    turned down by the freshness test of [parse_entry], before the
    duplicate test of [fetch_feed] is reached. *)
Lemma C1_counterexample :
  fst (entry_article_id (sample_entry (Some jan_1_2024)) 0%nat) = Return "guid-1" /\
  is_article_published store_with_guid_1 "guid-1" = true /\
  screen plain_normalizer (fixed_clock noon_jan_11) store_with_guid_1 "feed"
         (sample_entry (Some jan_1_2024)) 0 = Rejected stale /\
  screen plain_normalizer (fixed_clock noon_jan_11) store_with_guid_1 "feed"
         (sample_entry (Some jan_1_2024)) 0 <> Rejected duplicate.
Proof.
  repeat split; try reflexivity.
  vm_compute. discriminate.
Qed.

(** C1, amended. Whatever its other content, an entry for which
    [parse_entry] yields an article whose identifier is already in
    PublishedRecord is rejected as a duplicate: the iteration appends
    nothing and logs that the article is already published. And no entry
    whose derived identifier is in PublishedRecord is ever admitted:
    every article returned by [fetch_feed] is unpublished. *)
Theorem C1_published_never_accepted :
  forall norm clk db feed_url,
    (forall entry st a plog t',
       parse_entry norm clk entry feed_url (ticks st) = (Some a, plog, t') ->
       is_article_published db (art_id a) = true ->
       screen norm clk db feed_url entry (ticks st) = Rejected duplicate /\
       articles (fetch_feed_step norm clk db feed_url st entry) = articles st /\
       log (fetch_feed_step norm clk db feed_url st entry) =
         (log st ++ plog ++ [InfoAlreadyPublished (art_title a)])%list) /\
    (forall entry t i,
       fst (entry_article_id entry t) = Return i ->
       is_article_published db i = true ->
       forall a, screen norm clk db feed_url entry t <> Accepted a) /\
    (forall n feed t a,
       In a (fst (fst (fetch_feed norm clk db n feed_url feed t))) ->
       is_article_published db (art_id a) = false).
Proof.
  intros norm clk db feed_url. repeat split.
  - unfold parse_entry in H. unfold screen.
    destruct (parse_entry_body norm clk entry feed_url (ticks st)) as [[[b|]|e] t2];
      inversion H; subst. cbn. rewrite H0. reflexivity.
  - unfold fetch_feed_step. rewrite H, H0. reflexivity.
  - unfold fetch_feed_step. rewrite H, H0. reflexivity.
  - intros entry t i Hi Hpub a Hs.
    pose proof (screen_accepted_unpublished _ _ _ _ _ _ _ Hs) as Hun.
    unfold screen in Hs.
    destruct (parse_entry_body norm clk entry feed_url t) as [[[b|]|e] t2] eqn:Hb;
      cbn in Hs; try discriminate.
    destruct (is_article_published db (art_id b)); [discriminate|].
    inversion Hs; subst b.
    apply parse_entry_body_id in Hb. rewrite Hb in Hi. inversion Hi; subst i.
    rewrite Hpub in Hun. discriminate.
  - intros n feed t a Hin. unfold fetch_feed in Hin. cbn [fst] in Hin.
    revert a Hin. apply Forall_forall.
    apply fetch_feed_loop_Forall.
    + intros entry t0 a. apply screen_accepted_unpublished.
    + constructor.
Qed.

(** The sample entry, fresh this time, against a store that holds its
    identifier. *)
Lemma C1_witness :
  screen plain_normalizer (fixed_clock noon_jan_11) store_with_guid_1 "feed"
         (sample_entry (Some jan_11_2024)) 0 = Rejected duplicate.
Proof.
  refine (proj1 (proj1 (C1_published_never_accepted plain_normalizer
            (fixed_clock noon_jan_11) store_with_guid_1 "feed")
            (sample_entry (Some jan_11_2024))
            {| articles := []; log := []; ticks := 0 |} _ _ _ eq_refl _)).
  vm_compute. reflexivity.
Defined.

(** C9. With a non-negative [ARTICLES_PER_FEED], [fetch_feed] admits at
    most that many articles, and the entries beyond the first
    [ARTICLES_PER_FEED] have no effect on its result: articles, log and
    clock reads are those of the feed cut to the inspected prefix. *)
Theorem C9_only_prefix_inspected :
  forall norm clk db ARTICLES_PER_FEED feed_url t,
    0 <= ARTICLES_PER_FEED ->
    (forall feed,
       Z.of_nat (List.length (fst (fst (fetch_feed norm clk db ARTICLES_PER_FEED feed_url feed t))))
       <= ARTICLES_PER_FEED) /\
    (forall bz inspected beyond,
       List.length inspected = Z.to_nat ARTICLES_PER_FEED ->
       fetch_feed norm clk db ARTICLES_PER_FEED feed_url
         {| bozo := bz; entries := (inspected ++ beyond)%list |} t =
       fetch_feed norm clk db ARTICLES_PER_FEED feed_url
         {| bozo := bz; entries := inspected |} t) /\
    (forall feed,
       fetch_feed norm clk db ARTICLES_PER_FEED feed_url feed t =
       fetch_feed norm clk db ARTICLES_PER_FEED feed_url
         {| bozo := bozo feed;
            entries := firstn (Z.to_nat ARTICLES_PER_FEED) (entries feed) |} t).
Proof.
  intros norm clk db n feed_url t Hn. repeat split.
  - intros feed. unfold fetch_feed. cbn [fst].
    match goal with
    | |- context [fetch_feed_loop _ _ _ _ ?l ?s] =>
        pose proof (fetch_feed_loop_length norm clk db feed_url l s) as Hlen
    end.
    cbn [articles List.length] in Hlen.
    pose proof (slice_to_length n (entries feed) Hn). lia.
  - intros bz inspected beyond Hlen. unfold fetch_feed. cbn [entries bozo].
    rewrite (slice_to_app n inspected beyond Hn Hlen).
    rewrite (slice_to_exact n inspected Hn Hlen). reflexivity.
  - intros feed. unfold fetch_feed. cbn [entries bozo].
    replace (firstn (Z.to_nat n) (entries feed)) with (slice_to n (entries feed))
      by (unfold slice_to; destruct (0 <=? n) eqn:E; [reflexivity | apply Z.leb_gt in E; lia]).
    rewrite (slice_to_idem n (entries feed) Hn). reflexivity.
Qed.

(** Two entries offered with [ARTICLES_PER_FEED = 1]: the second, a
    fresh and unpublished one, is not looked at. *)
Lemma C9_witness :
  fetch_feed plain_normalizer (fixed_clock noon_jan_11) empty_store 1 "feed"
    {| bozo := None;
       entries := [sample_entry (Some jan_1_2024); sample_entry (Some jan_11_2024)] |} 0 =
  fetch_feed plain_normalizer (fixed_clock noon_jan_11) empty_store 1 "feed"
    {| bozo := None; entries := [sample_entry (Some jan_1_2024)] |} 0.
Proof.
  refine (proj1 (proj2 (C9_only_prefix_inspected plain_normalizer
            (fixed_clock noon_jan_11) empty_store 1 "feed" 0%nat _))
            None [sample_entry (Some jan_1_2024)] [sample_entry (Some jan_11_2024)] _).
  - lia.
  - reflexivity.
Defined.

(** ** Image extraction *)

Lemma first_image_media_find ms :
  first_image_media ms =
  match find (fun m => is_image_type (media_type m)) ms with
  | Some m => Some (media_url m)
  | None => None
  end.
Proof.
  induction ms as [|m rest IH]; [reflexivity|].
  cbn [first_image_media find]. unfold PyStr.startswith, is_image_type at 1.
  destruct (media_type m) as [t|]; cbn [get_or_empty].
  - destruct (String.prefix "image/" t); [reflexivity | exact IH].
  - exact IH.
Qed.

Lemma first_image_link_find ls :
  first_image_link ls =
  match find (fun l => is_image_type (link_type l)) ls with
  | Some l => Some (link_href l)
  | None => None
  end.
Proof.
  induction ls as [|l rest IH]; [reflexivity|].
  cbn [first_image_link find]. unfold PyStr.startswith, is_image_type at 1.
  destruct (link_type l) as [t|]; cbn [get_or_empty].
  - destruct (String.prefix "image/" t); [reflexivity | exact IH].
  - exact IH.
Qed.

Lemma image_after_media_source entry :
  image_after_media entry = source_media entry.
Proof.
  unfold image_after_media, source_media.
  destruct (e_media_content entry) as [ms|]; [|reflexivity].
  rewrite first_image_media_find.
  destruct (find (fun m => is_image_type (media_type m)) ms); reflexivity.
Qed.

(** The thumbnail block keeps a usable reference, and otherwise takes
    what the thumbnails offer. *)
Lemma image_after_thumbnail_cases entry img :
  (PyStr.truthy img = true -> image_after_thumbnail entry img = img) /\
  (PyStr.truthy img = false ->
   (PyStr.truthy (source_thumbnail entry) = true ->
    image_after_thumbnail entry img = source_thumbnail entry) /\
   (PyStr.truthy (source_thumbnail entry) = false ->
    PyStr.truthy (image_after_thumbnail entry img) = false)).
Proof.
  unfold image_after_thumbnail, source_thumbnail. split; intros Himg; rewrite Himg.
  - reflexivity.
  - cbn [negb]. destruct (e_media_thumbnail entry) as [[|th rest]|]; cbn [hd_error];
      split; intros H; try discriminate H; try reflexivity; assumption.
Qed.

(** The links block keeps a usable reference, and otherwise takes what
    the links offer. *)
Lemma image_after_links_cases entry img :
  (PyStr.truthy img = true -> image_after_links entry img = img) /\
  (PyStr.truthy img = false ->
   (PyStr.truthy (source_links entry) = true ->
    image_after_links entry img = source_links entry) /\
   (PyStr.truthy (source_links entry) = false ->
    PyStr.truthy (image_after_links entry img) = false)).
Proof.
  unfold image_after_links, source_links. split; intros Himg; rewrite Himg.
  - reflexivity.
  - cbn [negb]. destruct (e_links entry) as [ls|].
    + rewrite first_image_link_find.
      destruct (find (fun l => is_image_type (link_type l)) ls) as [l|];
        split; intros H; try discriminate H; try reflexivity; assumption.
    + split; intros H; [discriminate H | assumption].
Qed.

(** C5, as stated, fails: an image-typed media item is not always chosen
    in preference to a thumbnail. The loop over [media_content] stops at
    the first item of an image type; here that item has no url, so the
    second item, of type [image/jpeg] and with a url, is never looked at
    and the thumbnail is taken. *)
Lemma C5_counterexample :
  e_media_content entry_with_urlless_media =
    Some [{| media_type := Some "image/png"; media_url := None |};
          {| media_type := Some "image/jpeg"; media_url := Some "http://example.com/b.jpg" |}] /\
  PyStr.startswith "image/jpeg" "image/" = true /\
  extract_image_url entry_with_urlless_media = Some "http://example.com/t.jpg" /\
  extract_image_url entry_with_urlless_media <> Some "http://example.com/b.jpg".
Proof. repeat split; try reflexivity. discriminate. Qed.

(** C5, amended. The image reference is taken from three sources in
    priority order: the first [media_content] item of an image type, the
    first thumbnail, the first link of an image type; only the first such
    item of a source is looked at, and the first source whose item has a
    usable (non-empty) url wins. So the first image-typed media item,
    when it has a url, is taken whatever the thumbnails and links are.
    When no source offers a url the reference is empty, and an entry
    that is neither malformed nor stale still yields its article. *)
Theorem C5_image_priority :
  forall entry,
    (PyStr.truthy (source_media entry) = true ->
       extract_image_url entry = source_media entry) /\
    (PyStr.truthy (source_media entry) = false ->
     PyStr.truthy (source_thumbnail entry) = true ->
       extract_image_url entry = source_thumbnail entry) /\
    (PyStr.truthy (source_media entry) = false ->
     PyStr.truthy (source_thumbnail entry) = false ->
     PyStr.truthy (source_links entry) = true ->
       extract_image_url entry = source_links entry) /\
    (PyStr.truthy (image_by_priority entry) = true ->
       extract_image_url entry = image_by_priority entry) /\
    (PyStr.truthy (image_by_priority entry) = false ->
       PyStr.truthy (extract_image_url entry) = false) /\
    (forall norm clk feed_url t d t1,
       derive_fields norm clk entry t = (Return d, t1) ->
       older_than_week (clk t1) (d_pub_date d) = false ->
       exists a, fst (fst (parse_entry norm clk entry feed_url t)) = Some a /\
                 art_image_url a = extract_image_url entry).
Proof.
  intros entry.
  assert (Hmedia : PyStr.truthy (source_media entry) = true ->
                   extract_image_url entry = source_media entry).
  { intros Hm. unfold extract_image_url. rewrite image_after_media_source.
    rewrite (proj1 (image_after_thumbnail_cases entry _) Hm).
    apply (proj1 (image_after_links_cases entry _) Hm). }
  assert (Hthumb : PyStr.truthy (source_media entry) = false ->
                   PyStr.truthy (source_thumbnail entry) = true ->
                   extract_image_url entry = source_thumbnail entry).
  { intros Hm Ht. unfold extract_image_url. rewrite image_after_media_source.
    rewrite (proj1 (proj2 (image_after_thumbnail_cases entry _) Hm) Ht).
    apply (proj1 (image_after_links_cases entry _) Ht). }
  assert (Hafter : PyStr.truthy (source_media entry) = false ->
                   PyStr.truthy (source_thumbnail entry) = false ->
                   PyStr.truthy (image_after_thumbnail entry (image_after_media entry)) = false).
  { intros Hm Ht. rewrite image_after_media_source.
    apply (proj2 (proj2 (image_after_thumbnail_cases entry _) Hm) Ht). }
  assert (Hlinks : PyStr.truthy (source_media entry) = false ->
                   PyStr.truthy (source_thumbnail entry) = false ->
                   PyStr.truthy (source_links entry) = true ->
                   extract_image_url entry = source_links entry).
  { intros Hm Ht Hl. unfold extract_image_url.
    apply (proj1 (proj2 (image_after_links_cases entry _) (Hafter Hm Ht)) Hl). }
  assert (Hnone : PyStr.truthy (source_media entry) = false ->
                  PyStr.truthy (source_thumbnail entry) = false ->
                  PyStr.truthy (source_links entry) = false ->
                  PyStr.truthy (extract_image_url entry) = false).
  { intros Hm Ht Hl. unfold extract_image_url.
    apply (proj2 (proj2 (image_after_links_cases entry _) (Hafter Hm Ht)) Hl). }
  split; [exact Hmedia|]. split; [exact Hthumb|]. split; [exact Hlinks|].
  unfold image_by_priority, first_truthy.
  destruct (PyStr.truthy (source_media entry)) eqn:Hm.
  { split; [intros _; apply Hmedia; reflexivity|].
    split; [intros H; rewrite H in Hm; discriminate Hm|].
    intros norm clk feed_url t d t1 Hd Hfresh.
    destruct (parse_entry_body_derived norm clk entry feed_url _ _ _ Hd) as (link & Hl & Hb).
    rewrite Hfresh in Hb. eexists. unfold parse_entry. rewrite Hb. cbn.
    split; reflexivity. }
  destruct (PyStr.truthy (source_thumbnail entry)) eqn:Ht.
  { split; [intros _; apply Hthumb; reflexivity|].
    split; [intros H; rewrite H in Ht; discriminate Ht|].
    intros norm clk feed_url t d t1 Hd Hfresh.
    destruct (parse_entry_body_derived norm clk entry feed_url _ _ _ Hd) as (link & Hl & Hb).
    rewrite Hfresh in Hb. eexists. unfold parse_entry. rewrite Hb. cbn.
    split; reflexivity. }
  destruct (PyStr.truthy (source_links entry)) eqn:Hl.
  { split; [intros _; apply Hlinks; reflexivity|].
    split; [intros H; rewrite H in Hl; discriminate Hl|].
    intros norm clk feed_url t d t1 Hd Hfresh.
    destruct (parse_entry_body_derived norm clk entry feed_url _ _ _ Hd) as (link & Hl' & Hb).
    rewrite Hfresh in Hb. eexists. unfold parse_entry. rewrite Hb. cbn.
    split; reflexivity. }
  split; [cbn; intros H; discriminate H|].
  split; [intros _; apply Hnone; reflexivity|].
  intros norm clk feed_url t d t1 Hd Hfresh.
  destruct (parse_entry_body_derived norm clk entry feed_url _ _ _ Hd) as (link & Hl' & Hb).
  rewrite Hfresh in Hb. eexists. unfold parse_entry. rewrite Hb. cbn.
  split; reflexivity.
Qed.

(** The scenario of the specification: the [image/jpeg] media item wins
    over the thumbnail of the same entry. *)
Lemma C5_witness :
  extract_image_url entry_with_media_and_thumbnail = Some "http://example.com/a.jpg".
Proof.
  refine (proj1 (C5_image_priority entry_with_media_and_thumbnail) _).
  reflexivity.
Defined.

(** An entry whose only image is a link of an image type. *)
Example image_from_link :
  extract_image_url
    {| e_id := None; e_link := Some "http://example.com/6";
       e_title := Some "Poster"; e_summary := None;
       e_published_parsed := None; e_updated_parsed := None;
       e_media_content := None; e_media_thumbnail := Some [];
       e_links :=
         Some [{| link_type := Some "text/html"; link_href := Some "http://example.com/6" |};
               {| link_type := Some "image/png"; link_href := Some "http://example.com/p.png" |}] |}
  = Some "http://example.com/p.png".
Proof. reflexivity. Qed.

(** An entry with no image source at all is still parsed into an
    article, with no image reference. *)
Example no_image_still_article :
  fst (fst (parse_entry plain_normalizer (fixed_clock noon_jan_11)
              (sample_entry (Some jan_11_2024)) "feed" 0)) =
  Some {| art_id := "guid-1"; art_title := "Premiere night";
          art_summary := "Stars on the carpet"; art_link := "http://example.com/1";
          art_pub_date := noon_jan_11; art_source := "feed";
          art_image_url := None |}.
Proof. vm_compute. reflexivity. Qed.

(** ** The relevance matcher *)

Lemma prefix_spec p : forall s,
  String.prefix p s = true <-> exists post, s = (p ++ post)%string.
Proof.
  induction p as [|a p IH]; intros s.
  - split; [intros _; exists s; reflexivity | intros _; destruct s; reflexivity].
  - destruct s as [|b s]; cbn.
    + split; [discriminate | intros [post H]; discriminate].
    + destruct (ascii_dec a b) as [->|Hne].
      * rewrite IH. split; intros [post H]; exists post.
        -- rewrite H; reflexivity.
        -- inversion H; reflexivity.
      * split; [discriminate|]. intros [post H]. inversion H. subst. contradiction.
Qed.

Lemma contains_spec needle : forall hay,
  PyStr.contains needle hay = true <->
  exists pre post, hay = (pre ++ needle ++ post)%string.
Proof.
  induction hay as [|c hay IH]; cbn [PyStr.contains]; rewrite orb_true_iff.
  - split.
    + intros [H|H]; [|discriminate].
      apply prefix_spec in H. destruct H as [post H].
      exists EmptyString, post. exact H.
    + intros (pre & post & H). left. apply prefix_spec.
      destruct pre; [|discriminate]. exists post. exact H.
  - split.
    + intros [H|H].
      * apply prefix_spec in H. destruct H as [post H].
        exists EmptyString, post. exact H.
      * apply IH in H. destruct H as (pre & post & H).
        exists (String c pre), post. rewrite H. reflexivity.
    + intros (pre & post & H). destruct pre as [|c' pre].
      * left. apply prefix_spec. exists post. exact H.
      * right. apply IH. exists pre, post. inversion H. reflexivity.
Qed.




(** The test of the code: the lower-cased keyword is a substring of the
    lower-cased text. *)
Lemma keyword_occurs_spec lower text keyword :
  keyword_occurs lower text keyword = true <-> occurs_lowered lower keyword text.
Proof. unfold keyword_occurs, occurs_lowered. apply contains_spec. Qed.

(** The loop appends, in order, the dict of each event that passes the
    test. *)
Lemma get_relevant_events_loop lower text : forall today_events acc,
  fold_left
    (fun relevant_events event =>
       if existsb (keyword_occurs lower text) (event_keywords event)
       then (relevant_events ++ [relevant_dict event])%list
       else relevant_events)
    today_events acc =
  (acc ++ List.map relevant_dict
            (filter (event_is_relevant lower text) today_events))%list.
Proof.
  induction today_events as [|e rest IH]; intros acc; cbn [fold_left filter].
  - cbn. rewrite app_nil_r. reflexivity.
  - rewrite IH. unfold event_is_relevant at 2.
    destruct (existsb (keyword_occurs lower text) (event_keywords e)).
    + cbn [List.map]. rewrite <- app_assoc. reflexivity.
    + reflexivity.
Qed.

Lemma get_relevant_events_filter lower today_events text :
  get_relevant_events lower today_events text =
  List.map relevant_dict (filter (event_is_relevant lower text) today_events).
Proof. unfold get_relevant_events. apply get_relevant_events_loop. Qed.

Lemma split_nonempty sep s : PyStr.split sep s <> [].
Proof.
  destruct s as [|c s]; cbn; [discriminate|].
  destruct (Ascii.eqb c sep); [discriminate|].
  destruct (PyStr.split sep s); discriminate.
Qed.






(** The example of the specification, between an event that does not
    match and a second copy: order and multiplicity are kept. *)
Example tom_hanks_matches :
  let other := {| ev_id := 3; ev_name := "Premiere: Dune"; ev_date := 738896;
                  ev_keywords := "Zendaya,Dune" |} in
  get_relevant_events PyLower.py_lower [hanks_event; other; hanks_event]
    "Breaking: TOM HANKS visits" =
  [relevant_dict hanks_event; relevant_dict hanks_event].
Proof. vm_compute. reflexivity. Qed.

(** A Cyrillic keyword is found whatever the case of the text. *)
Example cyrillic_keyword_matches :
  get_relevant_events PyLower.py_lower
    [{| ev_id := 5; ev_name := "Премьера: Дюна"; ev_date := 738896;
        ev_keywords := "Дюна,премьера" |}]
    "ПРЕМЬЕРА сезона" =
  [{| rel_id := 5; rel_name := "Премьера: Дюна"; rel_date := 738896;
      rel_keywords := ["Дюна"; "премьера"] |}].
Proof. vm_compute. reflexivity. Qed.


Lemma contains_empty_hay needle :
  PyStr.contains needle EmptyString = is_empty needle.
Proof. destruct needle; reflexivity. Qed.

Lemma keyword_occurs_empty lower keyword :
  (forall s, lower s = EmptyString <-> s = EmptyString) ->
  keyword_occurs lower EmptyString keyword = is_empty keyword.
Proof.
  intros Hl. unfold keyword_occurs.
  rewrite (proj2 (Hl EmptyString) eq_refl), contains_empty_hay.
  destruct keyword as [|c k].
  - rewrite (proj2 (Hl EmptyString) eq_refl). reflexivity.
  - destruct (lower (String c k)) eqn:E; [|reflexivity].
    apply (proj1 (Hl _)) in E. discriminate E.
Qed.

Lemma event_is_relevant_empty lower event :
  (forall s, lower s = EmptyString <-> s = EmptyString) ->
  event_is_relevant lower EmptyString event = has_empty_keyword event.
Proof.
  intros Hl. unfold event_is_relevant, has_empty_keyword.
  induction (event_keywords event) as [|kw rest IH]; cbn [existsb]; [reflexivity|].
  rewrite (keyword_occurs_empty lower kw Hl), IH. reflexivity.
Qed.

(** [py_lower] maps the empty text, and no other, to the empty text. *)
Lemma py_lower_empty s :
  PyLower.py_lower s = EmptyString <-> s = EmptyString.
Proof.
  split; [|intros ->; reflexivity].
  unfold PyLower.py_lower. destruct s as [|c rest]; [reflexivity|].
  intros H. exfalso.
  assert (Hdec : exists t l, PyLower.utf8_decode (String c rest) = t :: l).
  { cbn [PyLower.utf8_decode].
    destruct (N_of_ascii c <? 128)%N; [eauto|].
    destruct ((192 <=? N_of_ascii c) && (N_of_ascii c <? 224))%N; [|eauto].
    destruct rest as [|c2 rest']; [eauto|].
    destruct ((128 <=? N_of_ascii c2) && (N_of_ascii c2 <? 192))%N; eauto. }
  destruct Hdec as (t & l & Hdec). rewrite Hdec in H.
  cbn [PyLower.lower_tokens PyLower.utf8_encode] in H.
  match type of H with
  | (PyLower.utf8_encode_token ?x ++ _)%string = _ =>
      assert (Htok : exists a r, PyLower.utf8_encode_token x = String a r)
  end.
  { match goal with
    | |- exists a r, PyLower.utf8_encode_token ?x = _ =>
        destruct x as [n|b]; cbn [PyLower.utf8_encode_token];
          [destruct (n <? 128)%N|]; eauto
    end. }
  destruct Htok as (a & r & Htok). rewrite Htok in H. discriminate H.
Qed.

(** C4, as stated, fails: the empty string is a substring of every text,
    the empty one included, so an event with an empty keyword is
    returned for the empty article text. *)
Lemma C4_counterexample :
  get_today_events 738896 store_with_blank_star <> [] /\
  get_relevant_events PyLower.py_lower
    (get_today_events 738896 store_with_blank_star) EmptyString =
  [{| rel_id := 1; rel_name := "Premiere: Heat"; rel_date := 738896;
      rel_keywords := [EmptyString; "Heat"; "premiere"; "film"; "series"] |}].
Proof. split; [discriminate | vm_compute; reflexivity]. Qed.

(** C4, amended. On the empty article text the matcher returns the
    events that have an empty keyword, hence the empty list when no
    event has one; on the empty event list it returns the empty list for
    every text. The matcher is a total function: it raises nothing. The
    lower-casing is any function that, like [str.lower], maps the empty
    text and no other to the empty text. *)
Theorem C4_empty_inputs :
  forall lower,
    (forall s, lower s = EmptyString <-> s = EmptyString) ->
    (forall today_events,
       get_relevant_events lower today_events EmptyString =
       List.map relevant_dict (filter has_empty_keyword today_events)) /\
    (forall today_events,
       Forall (fun event => has_empty_keyword event = false) today_events ->
       get_relevant_events lower today_events EmptyString = []) /\
    (forall text, get_relevant_events lower [] text = []).
Proof.
  intros lower Hl.
  assert (Hexact : forall today_events,
             get_relevant_events lower today_events EmptyString =
             List.map relevant_dict (filter has_empty_keyword today_events)).
  { intros today_events. rewrite get_relevant_events_filter. f_equal.
    apply filter_ext. intros e. apply event_is_relevant_empty. exact Hl. }
  split; [exact Hexact|]. split.
  - intros today_events Hall. rewrite Hexact.
    induction Hall as [|e rest He _ IH]; cbn; [reflexivity|].
    rewrite He. exact IH.
  - reflexivity.
Qed.

(** A lower-casing by a character table is such a function: for every
    table the matcher returns, on the empty text, the events that have
    an empty keyword. *)
Lemma get_relevant_events_empty_text_table lower_char today_events :
  get_relevant_events (PyStr.map lower_char) today_events EmptyString =
  List.map relevant_dict (filter has_empty_keyword today_events).
Proof.
  rewrite get_relevant_events_filter. f_equal.
  apply filter_ext. intros e. apply event_is_relevant_empty.
  intros s. destruct s; cbn; split; intros H; try reflexivity; discriminate H.
Qed.

Lemma C4_witness :
  get_relevant_events PyLower.py_lower [hanks_event; hanks_event] EmptyString = [].
Proof.
  refine (proj1 (proj2 (C4_empty_inputs PyLower.py_lower py_lower_empty))
            [hanks_event; hanks_event] _).
  repeat constructor.
Defined.

(** ** The publication formatter *)

Lemma mentions_app c a b :
  mentions c (a ++ b) = mentions c a || mentions c b.
Proof.
  induction a as [|d a IH]; cbn; [reflexivity|].
  rewrite IH. apply orb_assoc.
Qed.

(** An escaped text holds no angle bracket. *)
Lemma escape_html_no_angle s :
  mentions "<" (escape_html s) = false /\ mentions ">" (escape_html s) = false.
Proof.
  induction s as [|c s [IHl IHg]]; cbn [escape_html]; [split; reflexivity|].
  rewrite !mentions_app, IHl, IHg, !orb_false_r.
  destruct (Ascii.eqb c "&") eqn:Ea; [split; reflexivity|].
  destruct (Ascii.eqb c "<") eqn:El; [split; reflexivity|].
  destruct (Ascii.eqb c ">") eqn:Eg; [split; reflexivity|].
  cbn [mentions]. rewrite !orb_false_r, (Ascii.eqb_sym "<" c), (Ascii.eqb_sym ">" c).
  split; assumption.
Qed.

Lemma append_assoc (a b c : string) :
  ((a ++ b) ++ c = a ++ (b ++ c))%string.
Proof. induction a as [|x a IH]; cbn; [reflexivity | rewrite IH; reflexivity]. Qed.

Lemma prefix_empty s : String.prefix EmptyString s = true.
Proof. destruct s; reflexivity. Qed.

(** An escaped text is shown as the text that was escaped. *)
Lemma render_escape_html s : render 0 (escape_html s) = s.
Proof.
  induction s as [|c s IH]; cbn [escape_html]; [reflexivity|].
  destruct (Ascii.eqb c "&") eqn:Ea.
  { apply Ascii.eqb_eq in Ea. subst c. cbn. rewrite prefix_empty, IH. reflexivity. }
  destruct (Ascii.eqb c "<") eqn:El.
  { apply Ascii.eqb_eq in El. subst c. cbn. rewrite prefix_empty, IH. reflexivity. }
  destruct (Ascii.eqb c ">") eqn:Eg.
  { apply Ascii.eqb_eq in Eg. subst c. cbn. rewrite prefix_empty, IH. reflexivity. }
  apply Ascii.eqb_neq in Ea, El, Eg.
  cbn [append render String.prefix].
  destruct (ascii_dec "&" c) as [E|_]; [symmetry in E; contradiction|].
  rewrite IH. reflexivity.
Qed.

(** C8. The message is the escaped title between [<b>] and [</b>], two
    line ends, and the escaped summary. The escaped title and summary
    hold no angle bracket, so they open no tag, and they are shown to the
    reader as the title and summary themselves. The message depends on
    the title and summary only. *)
Theorem C8_format_message_escaped :
  forall article,
    format_message article =
      ("<b>" ++ escape_html (art_title article) ++ "</b>" ++ newline ++ newline
       ++ escape_html (art_summary article))%string /\
    mentions "<" (escape_html (art_title article)) = false /\
    mentions ">" (escape_html (art_title article)) = false /\
    mentions "<" (escape_html (art_summary article)) = false /\
    mentions ">" (escape_html (art_summary article)) = false /\
    render 0 (escape_html (art_title article)) = art_title article /\
    render 0 (escape_html (art_summary article)) = art_summary article /\
    (forall other,
       art_title other = art_title article ->
       art_summary other = art_summary article ->
       format_message other = format_message article).
Proof.
  intros article.
  destruct (escape_html_no_angle (art_title article)) as [Htl Htg].
  destruct (escape_html_no_angle (art_summary article)) as [Hsl Hsg].
  repeat split; try assumption; try apply render_escape_html.
  - unfold format_message. cbn zeta. rewrite !append_assoc. reflexivity.
  - intros other Ht Hs. unfold format_message. rewrite Ht, Hs. reflexivity.
Qed.

(** The scenario of the specification. *)
Example format_message_script :
  format_message sample_article =
  ("<b>&lt;script&gt;x&lt;/script&gt;Breaking</b>" ++ newline ++ newline ++ "A &amp; B")%string.
Proof. vm_compute. reflexivity. Qed.

(** ** The extraction cycle *)

Lemma add_events_fold : forall new_events st,
  fold_left (exec_call 0)
    (List.map (fun event => AddEvent (up_name event) (up_date event) (up_keywords event))
              new_events) st =
  {| published_articles := published_articles st;
     post_stats := post_stats st;
     events := (events st ++ inserted_rows (next_event_id st) new_events)%list;
     next_event_id := next_event_id st + Z.of_nat (List.length new_events) |}.
Proof.
  induction new_events as [|e rest IH]; intros st.
  - cbn. rewrite app_nil_r, Z.add_0_r. destruct st; reflexivity.
  - cbn [List.map fold_left exec_call]. rewrite IH. unfold add_event.
    cbn [published_articles post_stats events next_event_id inserted_rows List.length].
    rewrite <- app_assoc. f_equal. lia.
Qed.

(** The date seen by the store matters to the purge only. *)
Lemma exec_call_add_today today today' st c :
  is_add_event c = true -> exec_call today st c = exec_call today' st c.
Proof. destruct c; [discriminate | reflexivity]. Qed.

Lemma fold_adds_today today today' : forall calls st,
  forallb is_add_event calls = true ->
  fold_left (exec_call today) calls st = fold_left (exec_call today') calls st.
Proof.
  induction calls as [|c rest IH]; intros st H; [reflexivity|].
  cbn in H. apply andb_true_iff in H. destruct H as [Hc Hrest].
  cbn [fold_left]. rewrite (exec_call_add_today today today' st c Hc).
  apply IH. exact Hrest.
Qed.

Lemma adds_are_adds new_events :
  forallb is_add_event
    (List.map (fun event => AddEvent (up_name event) (up_date event) (up_keywords event))
              new_events) = true.
Proof. induction new_events as [|e rest IH]; [reflexivity | exact IH]. Qed.

(** The events after a cycle: the old ones that survive the purge, then
    the new ones. *)
Lemma update_events_events today new_events st :
  events (update_events today new_events st) =
  (filter (fun r => today - ev_date r <=? 30) (events st)
   ++ inserted_rows (next_event_id st) new_events)%list.
Proof.
  unfold update_events, update_events_calls. cbn [fold_left exec_call].
  rewrite (fold_adds_today today 0 _ _ (adds_are_adds new_events)).
  rewrite add_events_fold. reflexivity.
Qed.




(** The age that counts is that of the calendar date, not the time
    spent in the store: a premiere stored on day 738896 and dated sixty
    days ahead is still in the store after the cycle of day 738927,
    thirty-one days later. *)
Example upcoming_event_outlives_31_days :
  events (update_events 738896 [upcoming_heat] empty_store) =
    [{| ev_id := 1; ev_name := "Premiere: Heat"; ev_date := 738956;
        ev_keywords := "Al Pacino,Heat,premiere" |}] /\
  events (update_events 738927 [] (update_events 738896 [upcoming_heat] empty_store)) =
    [{| ev_id := 1; ev_name := "Premiere: Heat"; ev_date := 738956;
        ev_keywords := "Al Pacino,Heat,premiere" |}].
Proof. repeat split. Qed.

(** An event dated 36 days back that a cycle inserts is in the store
    after that cycle: the purge ran before the insertion. *)
Example old_dated_insertion_stays :
  events (update_events 738896
            [{| up_name := "Premiere: Ran"; up_date := 738860;
                up_keywords := ["Ran"] |}] empty_store) =
  [{| ev_id := 1; ev_name := "Premiere: Ran"; ev_date := 738860; ev_keywords := "Ran" |}].
Proof. reflexivity. Qed.

(** The identifiers of the empty store are in order. *)
Lemma empty_store_wf : store_wf empty_store.
Proof. constructor. Qed.

(** A cycle keeps the identifiers below the next one. *)
Lemma update_events_wf today new_events st :
  store_wf st -> store_wf (update_events today new_events st).
Proof.
  unfold store_wf. intros Hwf.
  rewrite update_events_events.
  unfold update_events, update_events_calls. cbn [fold_left exec_call].
  rewrite (fold_adds_today today 0 _ _ (adds_are_adds new_events)), add_events_fold.
  cbn [next_event_id clear_old_data].
  rewrite Forall_forall in *. intros row Hin. apply in_app_or in Hin.
  destruct Hin as [Hin|Hin].
  - apply filter_In in Hin. destruct Hin as [Hin _]. specialize (Hwf row Hin). lia.
  - clear Hwf. revert Hin. generalize (next_event_id st).
    induction new_events as [|e rest IH]; intros next Hin; [contradiction|].
    cbn in Hin. destruct Hin as [<-|Hin]; [cbn; lia|].
    apply IH in Hin. cbn [List.length]. lia.
Qed.

(** ** Publication of one article *)

Lemma add_published_article_published article_id title published_at st :
  is_article_published (add_published_article article_id title published_at st) article_id = true.
Proof.
  unfold is_article_published, add_published_article. cbn [published_articles].
  rewrite existsb_app. cbn. rewrite String.eqb_refl. apply orb_true_r.
Qed.

(** C10. [publish_to_telegram] returns a message identifier only when
    a send delivered the message under that identifier and the article
    was then recorded: the store holds its PublishedRecord row and the
    post-stats row of the message. When the send or one of the two store
    calls fails it returns [None] and logs the error. When the send
    itself fails the store is left as it was, so the filter decides on
    every entry as before and the article can be tried again. *)
Theorem C10_publish_result :
  forall env article channel_id st,
    (forall mid,
       pub_result (publish_to_telegram env article channel_id st) = Some mid ->
       (exists d,
          send_article env article channel_id (format_message article) = Some (mid, d) /\
          pub_delivery (publish_to_telegram env article channel_id st) = Some d) /\
       is_article_published (pub_store (publish_to_telegram env article channel_id st))
         (art_id article) = true /\
       In {| ps_message_id := mid; ps_post_time := to_moscow_time env (now env);
             ps_views := 0; ps_forwards := 0 |}
          (post_stats (pub_store (publish_to_telegram env article channel_id st)))) /\
    (send_article env article channel_id (format_message article) = None \/
     log_post_stats_raises env = true \/
     add_published_article_raises env = true ->
       pub_result (publish_to_telegram env article channel_id st) = None /\
       pub_error_logged (publish_to_telegram env article channel_id st) = true) /\
    (send_article env article channel_id (format_message article) = None ->
       pub_store (publish_to_telegram env article channel_id st) = st /\
       pub_delivery (publish_to_telegram env article channel_id st) = None /\
       forall norm clk feed_url entry t,
         screen norm clk (pub_store (publish_to_telegram env article channel_id st))
                feed_url entry t =
         screen norm clk st feed_url entry t) /\
    (forall mid d,
       send_article env article channel_id (format_message article) = Some (mid, d) ->
       log_post_stats_raises env = false ->
       add_published_article_raises env = false ->
       pub_result (publish_to_telegram env article channel_id st) = Some mid).
Proof.
  intros env article channel_id st. unfold publish_to_telegram.
  destruct (send_article env article channel_id (format_message article))
    as [[message_id d]|] eqn:Hsend.
  - destruct (log_post_stats_raises env) eqn:Hstats;
      [|destruct (add_published_article_raises env) eqn:Hrec];
      cbn [pub_result pub_store pub_delivery pub_error_logged];
      (split; [|split; [|split]]);
      try (intros mid Hmid; discriminate Hmid);
      try (intros _; split; reflexivity);
      try (intros H; discriminate H);
      try (intros mid d0 _ H; discriminate H);
      try (intros mid d0 _ _ H; discriminate H).
    + intros mid Hmid. inversion Hmid; subst mid. split; [|split].
      * exists d. split; reflexivity.
      * apply add_published_article_published.
      * cbn. apply in_or_app. right. left. reflexivity.
    + intros [H|[H|H]]; discriminate H.
    + intros mid d0 H _ _. inversion H. reflexivity.
  - cbn [pub_result pub_store pub_delivery pub_error_logged].
    split; [|split; [|split]].
    + intros mid Hmid. discriminate Hmid.
    + intros _. split; reflexivity.
    + intros _. repeat split.
    + intros mid d H. discriminate H.
Qed.

(** A run in which the platform refuses the send: nothing is returned
    and the store is untouched. *)
Lemma C10_witness :
  pub_store (publish_to_telegram env_send_fails sample_article "@channel" empty_store)
    = empty_store.
Proof.
  refine (proj1 (proj1 (proj2 (proj2 (C10_publish_result env_send_fails sample_article
            "@channel" empty_store))) _)).
  reflexivity.
Defined.

(** A run in which everything succeeds: the photo is delivered with the
    formatted caption and both rows are written. *)
Example publish_ok_run :
  publish_to_telegram env_ok sample_article "@channel" empty_store =
  {| pub_result := Some 501;
     pub_store :=
       {| published_articles :=
            [{| pub_article_id := "guid-1";
                pub_title := "<script>x</script>Breaking";
                pub_published_at := "2024-01-11 15:00:00" |}];
          post_stats :=
            [{| ps_message_id := 501; ps_post_time := noon_jan_11 + 10800000000;
                ps_views := 0; ps_forwards := 0 |}];
          events := [];
          next_event_id := 1 |};
     pub_delivery :=
       Some (Photo "@channel" "http://example.com/a.jpg" (format_message sample_article));
     pub_error_logged := false |}.
Proof. vm_compute. reflexivity. Qed.

(** A send that succeeds followed by a failing [add_published_article]:
    [None] is returned although the message is in the channel and its
    post-stats row is written; the article stays unpublished for the
    filter. *)
Example publish_record_fails_run :
  let env := {| requests_head := requests_head env_ok; send_photo := send_photo env_ok;
                send_message := send_message env_ok;
                log_post_stats_raises := false;
                add_published_article_raises := true;
                now := now env_ok; to_moscow_time := to_moscow_time env_ok;
                strftime := strftime env_ok |} in
  let r := publish_to_telegram env sample_article "@channel" empty_store in
  pub_result r = None /\
  is_article_published (pub_store r) "guid-1" = false /\
  List.length (post_stats (pub_store r)) = 1%nat.
Proof. repeat split. Qed.

(** ** Further properties of [parse_entry] *)

(** An entry without a link is turned down by the [except] clause even
    when it carries an id, since the default of [entry.get('id',
    entry.link)] is evaluated first; so is an entry without a title. In
    both cases the clock is not read and the error is logged. *)
Theorem parse_entry_missing_required :
  forall norm clk entry feed_url t,
    e_link entry = None \/ e_title entry = None ->
    parse_entry norm clk entry feed_url t =
      (None,
       [ErrorParse feed_url
          (AttributeError (match e_link entry with None => "link" | Some _ => "title" end))],
       t).
Proof.
  intros norm clk entry feed_url t H.
  unfold parse_entry, parse_entry_body, derive_fields, entry_article_id,
    bind, getattr, ret, raise.
  destruct (e_link entry) as [link|]; [|reflexivity].
  destruct H as [H|H]; [discriminate|]. rewrite H. reflexivity.
Qed.

Lemma parse_entry_missing_required_witness :
  parse_entry plain_normalizer (fixed_clock noon_jan_11) no_link_entry "feed" 0 =
  (None, [ErrorParse "feed" (AttributeError "link")], 0%nat).
Proof.
  refine (parse_entry_missing_required plain_normalizer (fixed_clock noon_jan_11)
            no_link_entry "feed" 0%nat _).
  left. reflexivity.
Defined.

(** The article [parse_entry] returns is read off the entry: its link,
    the id or else the link as identifier, the cleaned title, the
    cleaned summary without image tags or the empty string, the feed as
    source, and the extracted image reference; it passed the freshness
    test at the last clock reading. *)
Theorem parse_entry_article_fields :
  forall norm clk entry feed_url t a plog t',
    parse_entry norm clk entry feed_url t = (Some a, plog, t') ->
    exists link title,
      e_link entry = Some link /\ e_title entry = Some title /\
      art_link a = link /\
      art_id a = match e_id entry with Some i => i | None => link end /\
      art_title a = clean_html norm title /\
      art_summary a = match e_summary entry with
                      | Some s => clean_html norm (remove_img_tags norm s)
                      | None => EmptyString
                      end /\
      art_source a = feed_url /\
      art_image_url a = extract_image_url entry /\
      plog = [InfoParsing (art_title a); InfoImageUrl (art_image_url a)] /\
      (exists k, t' = S k /\ clk k - art_pub_date a <= timedelta_days 7).
Proof.
  intros norm clk entry feed_url t a plog t' H.
  unfold parse_entry in H.
  destruct (parse_entry_body norm clk entry feed_url t) as [[[b|]|e] t2] eqn:Hb;
    inversion H; subst b plog t2. clear H.
  pose proof Hb as Hb'. unfold parse_entry_body in Hb'.
  apply bind_inv in Hb'. destruct Hb' as (d & t1 & Hd & _).
  destruct (parse_entry_body_derived norm clk entry feed_url _ _ _ Hd) as (link & Hl & Hb2).
  rewrite Hb in Hb2.
  destruct (older_than_week (clk t1) (d_pub_date d)) eqn:Hw; [discriminate|].
  inversion Hb2; subst a t'. clear Hb2 Hb. cbn.
  unfold derive_fields, entry_article_id in Hd.
  apply bind_inv in Hd. destruct Hd as (i & t0 & Hi & Hd).
  apply bind_inv in Hi. destruct Hi as (l & t00 & Hl' & Hi).
  apply getattr_inv in Hl'. destruct Hl' as [Hl' ->].
  rewrite Hl in Hl'. inversion Hl'; subst l.
  cbv [ret] in Hi. inversion Hi; subst i t0.
  apply bind_inv in Hd. destruct Hd as (ti & t3 & Hti & Hd).
  apply getattr_inv in Hti. destruct Hti as [Hti ->].
  apply bind_inv in Hd. destruct Hd as (pd & t4 & _ & Hd).
  cbv [ret] in Hd. inversion Hd; subst d t4. cbn in *.
  exists link, ti. repeat split; try assumption; try reflexivity.
  exists t1. split; [reflexivity|].
  unfold older_than_week in Hw. apply Z.ltb_ge in Hw. exact Hw.
Qed.

Lemma parse_entry_article_fields_witness :
  exists link title,
    e_link (sample_entry (Some jan_11_2024)) = Some link /\
    e_title (sample_entry (Some jan_11_2024)) = Some title /\
    link = "http://example.com/1" /\ title = "Premiere night".
Proof.
  destruct (parse_entry_article_fields plain_normalizer (fixed_clock noon_jan_11)
              (sample_entry (Some jan_11_2024)) "feed" 0%nat _ _ _ eq_refl)
    as (link & title & Hl & Ht & _).
  exists link, title. repeat split; try assumption.
  - cbn in Hl. inversion Hl. reflexivity.
  - cbn in Ht. inversion Ht. reflexivity.
Defined.

(** A date whose fields the [datetime] constructor refuses (a 61st
    second, a 30th of February) makes the entry malformed: the current
    time is not substituted, and an unusable [published_parsed] is not
    replaced by [updated_parsed]. *)
Theorem parse_entry_bad_date :
  forall norm clk entry feed_url t link title st,
    e_link entry = Some link ->
    e_title entry = Some title ->
    match e_published_parsed entry with
    | Some p => Some p
    | None => e_updated_parsed entry
    end = Some st ->
    of_struct_time st = None ->
    parse_entry norm clk entry feed_url t =
      (None, [ErrorParse feed_url (ValueError "datetime")], t).
Proof.
  intros norm clk entry feed_url t link title st Hl Ht Hst Hbad.
  unfold parse_entry, parse_entry_body, derive_fields, entry_article_id,
    entry_pub_date, bind, getattr, ret, raise.
  rewrite Hl, Ht, Hst, Hbad. reflexivity.
Qed.

Lemma parse_entry_bad_date_witness :
  parse_entry plain_normalizer (fixed_clock noon_jan_11) leap_second_entry "feed" 0 =
  (None, [ErrorParse "feed" (ValueError "datetime")], 0%nat).
Proof.
  refine (parse_entry_bad_date plain_normalizer (fixed_clock noon_jan_11)
            leap_second_entry "feed" 0%nat
            "http://example.com/5" "Leap second" leap_second
            eq_refl eq_refl eq_refl _).
  vm_compute. reflexivity.
Defined.

(** The publication time of a returned article is that of
    [published_parsed] when the entry has one, else that of
    [updated_parsed], else the clock reading made in their place; the
    clock is read once for a dated entry and twice for an undated one. *)
Theorem parse_entry_pub_date :
  forall norm clk entry feed_url t a plog t',
    parse_entry norm clk entry feed_url t = (Some a, plog, t') ->
    match e_published_parsed entry, e_updated_parsed entry with
    | Some p, _ => of_struct_time p = Some (art_pub_date a) /\ t' = S t
    | None, Some u => of_struct_time u = Some (art_pub_date a) /\ t' = S t
    | None, None => art_pub_date a = clk t /\ t' = S (S t)
    end.
Proof.
  intros norm clk entry feed_url t a plog t'.
  unfold parse_entry, parse_entry_body, derive_fields, entry_article_id,
    entry_pub_date, bind, getattr, ret, raise, datetime_now.
  destruct (e_link entry) as [link|]; [|intros H; inversion H].
  destruct (e_title entry) as [title|]; [|intros H; inversion H].
  destruct (e_published_parsed entry) as [p|].
  - destruct (of_struct_time p) as [d|]; [|intros H; inversion H].
    cbn [d_pub_date d_id d_title d_summary].
    destruct (older_than_week (clk t) d); intros H; inversion H; subst; cbn; auto.
  - destruct (e_updated_parsed entry) as [u|].
    + destruct (of_struct_time u) as [d|]; [|intros H; inversion H].
      cbn [d_pub_date d_id d_title d_summary].
    destruct (older_than_week (clk t) d); intros H; inversion H; subst; cbn; auto.
    + cbn [d_pub_date d_id d_title d_summary].
      destruct (older_than_week (clk (S t)) (clk t)); intros H; inversion H; subst; cbn; auto.
Qed.

Lemma parse_entry_pub_date_witness :
  of_struct_time jan_11_2024 = Some noon_jan_11 /\ 1%nat = 1%nat.
Proof.
  exact (parse_entry_pub_date plain_normalizer (fixed_clock noon_jan_11)
           (sample_entry (Some jan_11_2024)) "feed" 0%nat _ _ _ eq_refl).
Defined.

(** ** Further properties of [fetch_feed] *)

(** With a clock that does not move the verdict on an entry does not
    depend on the number of clock reads made before. *)
Lemma screen_stationary norm clk db feed_url entry t :
  stationary clk ->
  screen norm clk db feed_url entry t = screen norm clk db feed_url entry 0.
Proof.
  intros Hst.
  assert (Hc : forall k, clk k = clk 0%nat) by exact Hst.
  unfold screen, parse_entry_body, derive_fields, entry_article_id,
    entry_pub_date, bind, getattr, ret, raise, datetime_now.
  destruct (e_link entry) as [link|]; [|reflexivity].
  destruct (e_title entry) as [title|]; [|reflexivity].
  destruct (match e_published_parsed entry with
            | Some p => Some p
            | None => e_updated_parsed entry
            end) as [st|].
  - destruct (of_struct_time st) as [d|]; [|reflexivity].
    cbn. rewrite (Hc t).
    destruct (older_than_week (clk 0%nat) d); reflexivity.
  - cbn. rewrite (Hc t), (Hc (S t)), (Hc 1%nat).
    destruct (older_than_week (clk 0%nat) (clk 0%nat)); reflexivity.
Qed.

(** The articles of the loop are the accepted verdicts of the entries,
    in feed order. *)
Lemma fetch_feed_loop_stationary norm clk db feed_url :
  stationary clk ->
  forall inspected st,
    articles (fetch_feed_loop norm clk db feed_url inspected st) =
    (articles st ++
     flat_map (fun entry => accepted_of (screen norm clk db feed_url entry 0)) inspected)%list.
Proof.
  intros Hst inspected. induction inspected as [|e rest IH]; intros st.
  - cbn. rewrite app_nil_r. reflexivity.
  - cbn [fetch_feed_loop fold_left flat_map].
    unfold fetch_feed_loop in IH. rewrite IH, fetch_feed_step_articles.
    rewrite (screen_stationary _ _ _ _ _ _ Hst), <- app_assoc. reflexivity.
Qed.

(** While the clock does not move, every inspected entry is judged on
    its own: [fetch_feed] returns the accepted verdicts of the inspected
    entries, in feed order. *)
Theorem fetch_feed_per_entry :
  forall norm clk db ARTICLES_PER_FEED feed_url feed t,
    stationary clk ->
    fst (fst (fetch_feed norm clk db ARTICLES_PER_FEED feed_url feed t)) =
    flat_map (fun entry => accepted_of (screen norm clk db feed_url entry 0))
             (slice_to ARTICLES_PER_FEED (entries feed)).
Proof.
  intros norm clk db n feed_url feed t Hst.
  unfold fetch_feed. cbn [fst].
  rewrite (fetch_feed_loop_stationary _ _ _ _ Hst). reflexivity.
Qed.

Lemma fixed_clock_stationary d : stationary (fixed_clock d).
Proof. intros k. reflexivity. Qed.

Lemma fetch_feed_per_entry_witness :
  fst (fst (fetch_feed plain_normalizer (fixed_clock noon_jan_11) empty_store 5 "feed"
              (feed_of [sample_entry (Some jan_1_2024); sample_entry (Some jan_11_2024)]) 0)) =
  flat_map (fun entry => accepted_of (screen plain_normalizer (fixed_clock noon_jan_11)
                                        empty_store "feed" entry 0))
           [sample_entry (Some jan_1_2024); sample_entry (Some jan_11_2024)].
Proof.
  exact (fetch_feed_per_entry plain_normalizer (fixed_clock noon_jan_11) empty_store 5 "feed"
           (feed_of [sample_entry (Some jan_1_2024); sample_entry (Some jan_11_2024)]) 0%nat
           (fixed_clock_stationary noon_jan_11)).
Defined.

(** [fetch_feed] does not compare the entries of a feed with each other:
    an acceptable entry that the feed lists twice is returned twice. *)
Theorem fetch_feed_repeated_entry :
  forall norm clk db ARTICLES_PER_FEED feed_url bz entry a t,
    stationary clk ->
    2 <= ARTICLES_PER_FEED ->
    screen norm clk db feed_url entry 0 = Accepted a ->
    fst (fst (fetch_feed norm clk db ARTICLES_PER_FEED feed_url
                {| bozo := bz; entries := [entry; entry] |} t)) = [a; a].
Proof.
  intros norm clk db n feed_url bz entry a t Hst Hn Hs.
  rewrite (fetch_feed_per_entry _ _ _ _ _ _ _ Hst). cbn [entries].
  assert (Hsl : slice_to n [entry; entry] = [entry; entry]).
  { unfold slice_to. destruct (0 <=? n) eqn:E; [|apply Z.leb_gt in E; lia].
    apply firstn_all2. cbn. lia. }
  rewrite Hsl. cbn. rewrite Hs. reflexivity.
Qed.

Lemma fetch_feed_repeated_entry_witness :
  List.length
    (fst (fst (fetch_feed plain_normalizer (fixed_clock noon_jan_11) empty_store 5 "feed"
                 {| bozo := None;
                    entries := [sample_entry (Some jan_11_2024);
                                sample_entry (Some jan_11_2024)] |} 0))) = 2%nat.
Proof.
  rewrite (fetch_feed_repeated_entry plain_normalizer (fixed_clock noon_jan_11) empty_store
             5 "feed" None (sample_entry (Some jan_11_2024))
             {| art_id := "guid-1"; art_title := "Premiere night";
                art_summary := "Stars on the carpet"; art_link := "http://example.com/1";
                art_pub_date := noon_jan_11; art_source := "feed";
                art_image_url := None |} 0%nat
             (fixed_clock_stationary noon_jan_11)).
  - reflexivity.
  - lia.
  - vm_compute. reflexivity.
Defined.

Lemma fetch_feed_step_ticks norm clk db feed_url st entry :
  ticks (fetch_feed_step norm clk db feed_url st entry) =
  snd (parse_entry norm clk entry feed_url (ticks st)).
Proof.
  unfold fetch_feed_step.
  destruct (parse_entry norm clk entry feed_url (ticks st)) as [[[a|] plog] t'];
    [destruct (negb (is_article_published db (art_id a)))|]; reflexivity.
Qed.

(** What was logged before does not bear on the articles nor on the
    clock reads of the loop. *)
Lemma fetch_feed_loop_log_free norm clk db feed_url : forall inspected st1 st2,
  articles st1 = articles st2 -> ticks st1 = ticks st2 ->
  articles (fetch_feed_loop norm clk db feed_url inspected st1) =
    articles (fetch_feed_loop norm clk db feed_url inspected st2) /\
  ticks (fetch_feed_loop norm clk db feed_url inspected st1) =
    ticks (fetch_feed_loop norm clk db feed_url inspected st2).
Proof.
  induction inspected as [|e rest IH]; intros st1 st2 Ha Ht.
  - split; assumption.
  - cbn [fetch_feed_loop fold_left]. apply IH.
    + rewrite !fetch_feed_step_articles, Ha, Ht. reflexivity.
    + rewrite !fetch_feed_step_ticks, Ht. reflexivity.
Qed.

(** A feed that the parser flags as ill-formed ([bozo]) is processed
    like any other: the flag adds a warning to the log and changes
    neither the articles returned nor the clock reads. *)
Theorem fetch_feed_bozo_still_processed :
  forall norm clk db ARTICLES_PER_FEED feed_url bozo_exception es t,
    fst (fst (fetch_feed norm clk db ARTICLES_PER_FEED feed_url
                {| bozo := Some bozo_exception; entries := es |} t)) =
    fst (fst (fetch_feed norm clk db ARTICLES_PER_FEED feed_url
                {| bozo := None; entries := es |} t)) /\
    snd (fetch_feed norm clk db ARTICLES_PER_FEED feed_url
           {| bozo := Some bozo_exception; entries := es |} t) =
    snd (fetch_feed norm clk db ARTICLES_PER_FEED feed_url
           {| bozo := None; entries := es |} t) /\
    In (WarnBozo feed_url bozo_exception)
       (snd (fst (fetch_feed norm clk db ARTICLES_PER_FEED feed_url
                    {| bozo := Some bozo_exception; entries := es |} t))).
Proof.
  intros norm clk db n feed_url ex es t.
  unfold fetch_feed. cbn [fst snd bozo entries].
  match goal with
  | |- context [fetch_feed_loop _ _ _ _ ?l ?s1] =>
      match goal with
      | |- context [fetch_feed_loop _ _ _ _ l ?s2] =>
          lazymatch s1 with
          | s2 => fail
          | _ => destruct (fetch_feed_loop_log_free norm clk db feed_url l s1 s2
                             eq_refl eq_refl) as [Ha Ht]
          end
      end
  end.
  repeat split; try assumption.
  apply in_or_app. left.
  assert (Hlog : forall inspected st r,
             In r (log st) ->
             In r (log (fetch_feed_loop norm clk db feed_url inspected st))).
  { induction inspected as [|e rest IH]; intros st r Hr; [exact Hr|].
    cbn [fetch_feed_loop fold_left]. apply IH.
    unfold fetch_feed_step.
    destruct (parse_entry norm clk e feed_url (ticks st)) as [[[a|] plog] t'];
      [destruct (negb (is_article_published db (art_id a)))|];
      cbn [log]; apply in_or_app; left; exact Hr. }
  apply Hlog. cbn. right. left. reflexivity.
Qed.

Lemma parse_entry_log_no_verdict norm clk entry feed_url t :
  filter is_verdict_record (snd (fst (parse_entry norm clk entry feed_url t))) = [].
Proof.
  unfold parse_entry.
  destruct (parse_entry_body norm clk entry feed_url t) as [[[a|]|e] t']; reflexivity.
Qed.

Lemma fetch_feed_loop_accounting norm clk db feed_url : forall inspected st,
  List.length (filter is_verdict_record
                 (log (fetch_feed_loop norm clk db feed_url inspected st))) =
    (List.length (filter is_verdict_record (log st)) + List.length inspected)%nat /\
  (List.length (filter is_added_record
                  (log (fetch_feed_loop norm clk db feed_url inspected st)))
   + List.length (articles st) =
   List.length (filter is_added_record (log st))
   + List.length (articles (fetch_feed_loop norm clk db feed_url inspected st)))%nat.
Proof.
  induction inspected as [|e rest IH]; intros st.
  - cbn. split; lia.
  - cbn [fetch_feed_loop fold_left List.length].
    destruct (IH (fetch_feed_step norm clk db feed_url st e)) as [IH1 IH2].
    unfold fetch_feed_loop in IH1, IH2. rewrite IH1.
    assert (Hstep :
      List.length (filter is_verdict_record
                     (log (fetch_feed_step norm clk db feed_url st e))) =
        S (List.length (filter is_verdict_record (log st))) /\
      (List.length (filter is_added_record
                      (log (fetch_feed_step norm clk db feed_url st e)))
       + List.length (articles st) =
       List.length (filter is_added_record (log st))
       + List.length (articles (fetch_feed_step norm clk db feed_url st e)))%nat).
    { pose proof (parse_entry_log_no_verdict norm clk e feed_url (ticks st)) as Hnv.
      unfold fetch_feed_step. unfold parse_entry in *.
      destruct (parse_entry_body norm clk e feed_url (ticks st)) as [[[a|]|x] t'];
        [destruct (is_article_published db (art_id a))| |];
        cbn [negb log articles fst snd] in *;
        rewrite !filter_app, !length_app; cbn; split; lia. }
    destruct Hstep as [H1 H2]. split; lia.
Qed.

(** The log accounts for every inspected entry: it holds exactly one of
    the three records "added", "already published", "could not
    process" per inspected entry, and as many "added" records as
    articles are returned. *)
Theorem fetch_feed_log_accounting :
  forall norm clk db ARTICLES_PER_FEED feed_url feed t,
    List.length (filter is_verdict_record
                   (snd (fst (fetch_feed norm clk db ARTICLES_PER_FEED feed_url feed t)))) =
      List.length (slice_to ARTICLES_PER_FEED (entries feed)) /\
    List.length (filter is_added_record
                   (snd (fst (fetch_feed norm clk db ARTICLES_PER_FEED feed_url feed t)))) =
      List.length (fst (fst (fetch_feed norm clk db ARTICLES_PER_FEED feed_url feed t))) /\
    In (InfoFetched
          (List.length (fst (fst (fetch_feed norm clk db ARTICLES_PER_FEED feed_url feed t))))
          feed_url)
       (snd (fst (fetch_feed norm clk db ARTICLES_PER_FEED feed_url feed t))).
Proof.
  intros norm clk db n feed_url feed t.
  unfold fetch_feed. cbn [fst snd].
  match goal with
  | |- context [fetch_feed_loop _ _ _ _ ?l ?s] =>
      destruct (fetch_feed_loop_accounting norm clk db feed_url l s) as [H1 H2]
  end.
  cbn [log articles List.length] in H1, H2.
  assert (H0 : forall bz : option string,
             filter is_verdict_record
               (InfoFetching feed_url ::
                match bz with Some ex => [WarnBozo feed_url ex] | None => [] end) = [] /\
             filter is_added_record
               (InfoFetching feed_url ::
                match bz with Some ex => [WarnBozo feed_url ex] | None => [] end) = [])
    by (intros [ex|]; split; reflexivity).
  destruct (H0 (bozo feed)) as [Hv Ha]. rewrite Hv in H1. rewrite Ha in H2.
  cbn [List.length] in H1, H2.
  rewrite !filter_app, !length_app. cbn.
  split; [lia|]. split; [lia|].
  apply in_or_app. right. left. reflexivity.
Qed.

(** A negative [ARTICLES_PER_FEED] is a slice bound counted from the
    end: the last entries, as many as its absolute value, are skipped
    and all the others are inspected; a feed with no more entries than
    that yields nothing. *)
Theorem fetch_feed_negative_bound :
  forall norm clk db ARTICLES_PER_FEED feed_url bz t,
    ARTICLES_PER_FEED < 0 ->
    (forall kept dropped,
       List.length dropped = Z.to_nat (- ARTICLES_PER_FEED) ->
       fetch_feed norm clk db ARTICLES_PER_FEED feed_url
         {| bozo := bz; entries := (kept ++ dropped)%list |} t =
       fetch_feed norm clk db (Z.of_nat (List.length kept)) feed_url
         {| bozo := bz; entries := kept |} t) /\
    (forall es,
       (List.length es <= Z.to_nat (- ARTICLES_PER_FEED))%nat ->
       fst (fst (fetch_feed norm clk db ARTICLES_PER_FEED feed_url
                   {| bozo := bz; entries := es |} t)) = []).
Proof.
  intros norm clk db n feed_url bz t Hn. split.
  - intros kept dropped Hlen. unfold fetch_feed. cbn [bozo entries].
    assert (H1 : slice_to n (kept ++ dropped) = kept).
    { unfold slice_to. destruct (0 <=? n) eqn:E; [apply Z.leb_le in E; lia|].
      rewrite length_app, Hlen, Nat.add_sub.
      rewrite firstn_app, Nat.sub_diag, firstn_all. cbn. apply app_nil_r. }
    assert (H2 : slice_to (Z.of_nat (List.length kept)) kept = kept).
    { apply slice_to_exact; [lia | rewrite Nat2Z.id; reflexivity]. }
    rewrite H1, H2. reflexivity.
  - intros es Hlen. unfold fetch_feed. cbn [bozo entries fst].
    assert (H1 : slice_to n es = []).
    { unfold slice_to. destruct (0 <=? n) eqn:E; [apply Z.leb_le in E; lia|].
      replace (List.length es - Z.to_nat (- n))%nat with 0%nat by lia.
      reflexivity. }
    rewrite H1. reflexivity.
Qed.

Lemma fetch_feed_negative_bound_witness :
  fetch_feed plain_normalizer (fixed_clock noon_jan_11) empty_store (-1) "feed"
    {| bozo := None;
       entries := [sample_entry (Some jan_11_2024); sample_entry None] |} 0 =
  fetch_feed plain_normalizer (fixed_clock noon_jan_11) empty_store 1 "feed"
    {| bozo := None; entries := [sample_entry (Some jan_11_2024)] |} 0.
Proof.
  refine (proj1 (fetch_feed_negative_bound plain_normalizer (fixed_clock noon_jan_11)
            empty_store (-1) "feed" None 0%nat _)
            [sample_entry (Some jan_11_2024)] [sample_entry None] _).
  - lia.
  - reflexivity.
Defined.

Lemma screen_accepted_parse norm clk db feed_url entry t a :
  screen norm clk db feed_url entry t = Accepted a ->
  exists plog t', parse_entry norm clk entry feed_url t = (Some a, plog, t').
Proof.
  unfold screen, parse_entry.
  destruct (parse_entry_body norm clk entry feed_url t) as [[[b|]|e] t2];
    cbn; try discriminate.
  destruct (is_article_published db (art_id b)); [discriminate|].
  intros H. inversion H; subst. eauto.
Qed.

Lemma fetch_feed_loop_origin norm clk db feed_url : forall inspected st a,
  In a (articles (fetch_feed_loop norm clk db feed_url inspected st)) ->
  In a (articles st) \/
  exists entry t0, In entry inspected /\
                   screen norm clk db feed_url entry t0 = Accepted a.
Proof.
  induction inspected as [|e rest IH]; intros st a Hin.
  - left. exact Hin.
  - cbn [fetch_feed_loop fold_left] in Hin. apply IH in Hin.
    destruct Hin as [Hin|(entry & t0 & He & Hs)].
    + rewrite fetch_feed_step_articles in Hin. apply in_app_or in Hin.
      destruct Hin as [Hin|Hin]; [left; exact Hin|].
      right. exists e, (ticks st). split; [left; reflexivity|].
      destruct (screen norm clk db feed_url e (ticks st)) as [b|r]; cbn in Hin.
      * destruct Hin as [->|[]]. reflexivity.
      * contradiction.
    + right. exists entry, t0. split; [right; exact He | exact Hs].
Qed.

(** Every article [fetch_feed] returns is the accepted verdict of one of
    the inspected entries: it names the feed as its source, its link is
    the link of that entry, and its identifier is not in
    PublishedRecord. *)
Theorem fetch_feed_articles_origin :
  forall norm clk db ARTICLES_PER_FEED feed_url feed t a,
    In a (fst (fst (fetch_feed norm clk db ARTICLES_PER_FEED feed_url feed t))) ->
    art_source a = feed_url /\
    is_article_published db (art_id a) = false /\
    exists entry t0,
      In entry (slice_to ARTICLES_PER_FEED (entries feed)) /\
      screen norm clk db feed_url entry t0 = Accepted a /\
      e_link entry = Some (art_link a).
Proof.
  intros norm clk db n feed_url feed t a Hin.
  unfold fetch_feed in Hin. cbn [fst] in Hin.
  apply fetch_feed_loop_origin in Hin.
  destruct Hin as [[]|(entry & t0 & He & Hs)].
  destruct (screen_accepted_parse _ _ _ _ _ _ _ Hs) as (plog & t' & Hp).
  destruct (parse_entry_article_fields _ _ _ _ _ _ _ _ Hp)
    as (link & title & Hl & _ & Hal & _ & _ & _ & Hsrc & _).
  split; [exact Hsrc|]. split; [exact (screen_accepted_unpublished _ _ _ _ _ _ _ Hs)|].
  exists entry, t0. repeat split; try assumption. rewrite Hal. exact Hl.
Qed.

Lemma fetch_feed_articles_origin_witness :
  art_source {| art_id := "guid-1"; art_title := "Premiere night";
                art_summary := "Stars on the carpet"; art_link := "http://example.com/1";
                art_pub_date := noon_jan_11; art_source := "feed";
                art_image_url := None |} = "feed".
Proof.
  refine (proj1 (fetch_feed_articles_origin plain_normalizer (fixed_clock noon_jan_11)
            empty_store 5 "feed" (feed_of [sample_entry (Some jan_11_2024)]) 0%nat _ _)).
  vm_compute. left. reflexivity.
Defined.

(** ** [fetch_articles] *)

Lemma fetch_articles_step_articles norm clk db n parse st feed_url :
  run_articles (fetch_articles_step norm clk db n parse st feed_url) =
  (run_articles st ++
   match parse feed_url with
   | Some feed => fst (fst (fetch_feed norm clk db n feed_url feed (run_ticks st)))
   | None => []
   end)%list.
Proof.
  unfold fetch_articles_step.
  destruct (parse feed_url) as [feed|]; [|cbn; rewrite app_nil_r; reflexivity].
  destruct (fetch_feed norm clk db n feed_url feed (run_ticks st)) as [[fa fl] t'].
  reflexivity.
Qed.

Lemma fetch_articles_loop_origin norm clk db n parse : forall feeds st a,
  In a (run_articles (fold_left (fetch_articles_step norm clk db n parse) feeds st)) ->
  In a (run_articles st) \/
  exists feed_url feed t0,
    In feed_url feeds /\ parse feed_url = Some feed /\
    In a (fst (fst (fetch_feed norm clk db n feed_url feed t0))).
Proof.
  induction feeds as [|u rest IH]; intros st a Hin.
  - left. exact Hin.
  - cbn [fold_left] in Hin. apply IH in Hin.
    destruct Hin as [Hin|(feed_url & feed & t0 & Hu & Hp & Ha)].
    + rewrite fetch_articles_step_articles in Hin. apply in_app_or in Hin.
      destruct Hin as [Hin|Hin]; [left; exact Hin|].
      destruct (parse u) as [feed|] eqn:Hp; [|contradiction].
      right. exists u, feed, (run_ticks st). repeat split; auto. left. reflexivity.
    + right. exists feed_url, feed, t0. repeat split; auto. right. exact Hu.
Qed.

(** No article of a run is already published, and each one comes from
    a configured feed that could be fetched, which it names as its
    source. *)
Theorem fetch_articles_origin :
  forall norm clk db ARTICLES_PER_FEED RSS_FEEDS feedparser_parse t a,
    In a (fst (fst (fetch_articles norm clk db ARTICLES_PER_FEED RSS_FEEDS
                      feedparser_parse t))) ->
    is_article_published db (art_id a) = false /\
    In (art_source a) RSS_FEEDS /\
    feedparser_parse (art_source a) <> None.
Proof.
  intros norm clk db n feeds parse t a Hin.
  unfold fetch_articles in Hin. cbn [fst] in Hin.
  apply fetch_articles_loop_origin in Hin.
  destruct Hin as [[]|(feed_url & feed & t0 & Hu & Hp & Ha)].
  apply fetch_feed_articles_origin in Ha. destruct Ha as (Hsrc & Hun & _).
  rewrite Hsrc. repeat split; try assumption. rewrite Hp. discriminate.
Qed.

Lemma fetch_articles_origin_witness :
  In "good" ["down"; "good"] /\ sample_feedparser "good" <> None.
Proof.
  refine (proj2 (fetch_articles_origin plain_normalizer (fixed_clock noon_jan_11)
            empty_store 5 ["down"; "good"] sample_feedparser 0%nat
            {| art_id := "guid-1"; art_title := "Premiere night";
               art_summary := "Stars on the carpet"; art_link := "http://example.com/1";
               art_pub_date := noon_jan_11; art_source := "good";
               art_image_url := None |} _)).
  vm_compute. left. reflexivity.
Defined.

Lemma fetch_articles_loop_stationary norm clk db n parse :
  stationary clk ->
  forall feeds st,
    run_articles (fold_left (fetch_articles_step norm clk db n parse) feeds st) =
    (run_articles st ++ flat_map (feed_articles norm clk db n parse) feeds)%list.
Proof.
  intros Hst feeds. induction feeds as [|u rest IH]; intros st.
  - cbn. rewrite app_nil_r. reflexivity.
  - cbn [fold_left flat_map]. rewrite IH, fetch_articles_step_articles.
    rewrite <- app_assoc. f_equal. f_equal.
    unfold feed_articles. destruct (parse u) as [feed|]; [|reflexivity].
    apply fetch_feed_per_entry. exact Hst.
Qed.

(** Feeds are isolated from each other: a feed whose fetch raises
    contributes nothing and stops nothing. While the clock does not move
    the run returns, feed after feed in the configured order, what each
    feed that could be fetched yields on its own. *)
Theorem fetch_articles_isolated :
  forall norm clk db ARTICLES_PER_FEED RSS_FEEDS feedparser_parse t,
    stationary clk ->
    fst (fst (fetch_articles norm clk db ARTICLES_PER_FEED RSS_FEEDS feedparser_parse t)) =
    flat_map (feed_articles norm clk db ARTICLES_PER_FEED feedparser_parse) RSS_FEEDS.
Proof.
  intros norm clk db n feeds parse t Hst.
  unfold fetch_articles. cbn [fst].
  rewrite (fetch_articles_loop_stationary _ _ _ _ _ Hst). reflexivity.
Qed.

Lemma fetch_articles_isolated_witness :
  List.length
    (fst (fst (fetch_articles plain_normalizer (fixed_clock noon_jan_11) empty_store 5
                 ["down"; "good"; "gone"] sample_feedparser 0))) = 1%nat.
Proof.
  rewrite (fetch_articles_isolated plain_normalizer (fixed_clock noon_jan_11) empty_store 5
             ["down"; "good"; "gone"] sample_feedparser 0%nat
             (fixed_clock_stationary noon_jan_11)).
  vm_compute. reflexivity.
Defined.

Lemma fetch_feed_length norm clk db n feed_url feed t :
  0 <= n ->
  Z.of_nat (List.length (fst (fst (fetch_feed norm clk db n feed_url feed t)))) <= n.
Proof.
  intros Hn. unfold fetch_feed. cbn [fst].
  match goal with
  | |- context [fetch_feed_loop _ _ _ _ ?l ?s] =>
      pose proof (fetch_feed_loop_length norm clk db feed_url l s) as Hlen
  end.
  cbn [articles List.length] in Hlen.
  pose proof (slice_to_length n (entries feed) Hn). lia.
Qed.

Lemma fetch_articles_loop_length norm clk db n parse :
  0 <= n ->
  forall feeds st,
    Z.of_nat (List.length (run_articles
                (fold_left (fetch_articles_step norm clk db n parse) feeds st)))
    <= Z.of_nat (List.length (run_articles st)) + n * Z.of_nat (List.length feeds).
Proof.
  intros Hn feeds. induction feeds as [|u rest IH]; intros st.
  - cbn. lia.
  - cbn [fold_left List.length]. specialize (IH (fetch_articles_step norm clk db n parse st u)).
    rewrite fetch_articles_step_articles, length_app in IH.
    assert (Hfeed : Z.of_nat (List.length
                      match parse u with
                      | Some feed => fst (fst (fetch_feed norm clk db n u feed (run_ticks st)))
                      | None => []
                      end) <= n).
    { destruct (parse u) as [feed|]; [|cbn; lia].
      apply fetch_feed_length. exact Hn. }
    lia.
Qed.

(** A run returns at most [ARTICLES_PER_FEED] articles per configured
    feed. *)
Theorem fetch_articles_bound :
  forall norm clk db ARTICLES_PER_FEED RSS_FEEDS feedparser_parse t,
    0 <= ARTICLES_PER_FEED ->
    Z.of_nat (List.length
      (fst (fst (fetch_articles norm clk db ARTICLES_PER_FEED RSS_FEEDS feedparser_parse t))))
    <= ARTICLES_PER_FEED * Z.of_nat (List.length RSS_FEEDS).
Proof.
  intros norm clk db n feeds parse t Hn.
  unfold fetch_articles. cbn [fst].
  match goal with
  | |- context [fold_left ?f ?l ?s] =>
      pose proof (fetch_articles_loop_length norm clk db n parse Hn l s) as H
  end.
  cbn [run_articles List.length] in H. lia.
Qed.

Lemma fetch_articles_bound_witness :
  Z.of_nat (List.length
    (fst (fst (fetch_articles plain_normalizer (fixed_clock noon_jan_11) empty_store 5
                 ["down"; "good"; "gone"] sample_feedparser 0))))
  <= 5 * Z.of_nat (List.length ["down"; "good"; "gone"]).
Proof.
  refine (fetch_articles_bound plain_normalizer (fixed_clock noon_jan_11) empty_store 5
            ["down"; "good"; "gone"] sample_feedparser 0%nat _).
  lia.
Defined.

(** ** [fetch_upcoming_events] *)

Lemma date_of_fields_spec y m d :
  date_of_fields y m d =
  if (1 <=? y) && (y <=? 9999) && (1 <=? m) && (m <=? 12)
     && (1 <=? d) && (d <=? days_in_month y m)
  then Some (ymd2ord y m d) else None.
Proof.
  unfold date_of_fields, valid_fields.
  cbn [tm_year tm_mon tm_mday tm_hour tm_min tm_sec].
  change (0 <=? 0) with true. change (0 <=? 23) with true. change (0 <=? 59) with true.
  rewrite !andb_true_r. reflexivity.
Qed.

Lemma is_leap_1900 : is_leap 1900 = false.
Proof. reflexivity. Qed.

(** A day that exists in 1900 exists in every year. *)
Lemma days_in_month_1900_le y m : days_in_month 1900 m <= days_in_month y m.
Proof.
  unfold days_in_month. rewrite is_leap_1900.
  destruct (m =? 2); [destruct (is_leap y); lia|].
  destruct ((m =? 4) || (m =? 6) || (m =? 9) || (m =? 11)); lia.
Qed.

(** What the body of the inner [try] returned, when it returned an
    event. *)
Lemma parse_block_inv sc clk b t ev t' :
  parse_block sc clk b t = (Return (Some ev), t') ->
  exists heading raw_title m d,
    blk_heading b = Some heading /\ blk_title b = Some raw_title /\
    strptime_B_d sc (strip sc heading) = Some (m, d) /\
    1 <= m <= 12 /\ 1 <= d <= days_in_month 1900 m /\
    1 <= year_of sc (clk t) <= 9999 /\
    ev = {| up_name := (premiere_prefix ++ strip sc raw_title)%string;
            up_date := ymd2ord (year_of sc (clk t)) m d;
            up_keywords := (List.map (strip sc) (blk_stars b)
                            ++ strip sc raw_title :: fixed_keywords)%list |}.
Proof.
  unfold parse_block, strptime_month_day, replace_year_date.
  destruct (blk_heading b) as [heading|]; [|cbv [ret]; intros H; inversion H].
  destruct (strptime_B_d sc (strip sc heading)) as [[m d]|] eqn:Hfmt;
    [|unfold bind, raise; intros H; discriminate H].
  rewrite (date_of_fields_spec 1900 m d).
  destruct ((1 <=? 1900) && (1900 <=? 9999) && (1 <=? m) && (m <=? 12)
            && (1 <=? d) && (d <=? days_in_month 1900 m)) eqn:H1900;
    [|unfold bind, raise; intros H; discriminate H].
  unfold bind at 1. cbv [ret]. unfold bind at 1. cbv [datetime_now].
  cbn [fst snd]. rewrite (date_of_fields_spec (year_of sc (clk t)) m d).
  destruct ((1 <=? year_of sc (clk t)) && (year_of sc (clk t) <=? 9999) && (1 <=? m)
            && (m <=? 12) && (1 <=? d) && (d <=? days_in_month (year_of sc (clk t)) m))
    eqn:Hy; [|unfold bind, raise; intros H; discriminate H].
  unfold bind, ret, getattr.
  destruct (blk_title b) as [raw_title|]; [|unfold raise; intros H; discriminate H].
  intros H. inversion H; subst ev t'. clear H.
  exists heading, raw_title, m, d.
  rewrite !andb_true_iff in H1900, Hy.
  repeat match goal with
         | H : _ /\ _ |- _ => destruct H
         | H : (_ <=? _) = true |- _ => apply Z.leb_le in H
         end.
  repeat split; try reflexivity; try assumption.
Qed.

Lemma fetch_upcoming_events_loop_origin sc clk : forall blocks st ev,
  In ev (sc_events (fold_left (fetch_upcoming_events_step sc clk) blocks st)) ->
  In ev (sc_events st) \/
  exists b t0 t1, In b blocks /\ parse_block sc clk b t0 = (Return (Some ev), t1).
Proof.
  induction blocks as [|b rest IH]; intros st ev Hin.
  - left. exact Hin.
  - cbn [fold_left] in Hin. apply IH in Hin.
    destruct Hin as [Hin|(b' & t0 & t1 & Hb & Hp)].
    + unfold fetch_upcoming_events_step in Hin.
      destruct (parse_block sc clk b (sc_ticks st)) as [[[e|]|x] t'] eqn:Hp;
        cbn [sc_events] in Hin; try (left; exact Hin).
      apply in_app_or in Hin. destruct Hin as [Hin|[->|[]]]; [left; exact Hin|].
      right. exists b, (sc_ticks st), t'. split; [left; reflexivity | exact Hp].
    + right. exists b', t0, t1. split; [right; exact Hb | exact Hp].
Qed.

(** Every extracted event is named after the title of its block and its
    keywords are the participants of the block, then the title, then
    the three fixed keywords: the keyword list is never empty. *)
Theorem fetch_upcoming_events_keywords :
  forall sc clk blocks t ev,
    In ev (fst (fst (fetch_upcoming_events sc clk (Some blocks) t))) ->
    exists b raw_title,
      In b blocks /\ blk_title b = Some raw_title /\
      up_name ev = (premiere_prefix ++ strip sc raw_title)%string /\
      up_keywords ev = (List.map (strip sc) (blk_stars b)
                        ++ strip sc raw_title :: fixed_keywords)%list /\
      (4 <= List.length (up_keywords ev))%nat.
Proof.
  intros sc clk blocks t ev Hin.
  unfold fetch_upcoming_events in Hin. cbn [fst] in Hin.
  apply fetch_upcoming_events_loop_origin in Hin.
  destruct Hin as [[]|(b & t0 & t1 & Hb & Hp)].
  apply parse_block_inv in Hp.
  destruct Hp as (heading & raw_title & m & d & _ & Ht & _ & _ & _ & _ & ->).
  exists b, raw_title. cbn [up_name up_keywords].
  repeat split; try assumption.
  rewrite length_app. cbn. lia.
Qed.

Lemma fetch_upcoming_events_keywords_witness :
  exists b raw_title,
    In b [leap_block; heat_block] /\ blk_title b = Some raw_title /\
    (premiere_prefix ++ "Heat")%string = (premiere_prefix ++ raw_title)%string.
Proof.
  destruct (fetch_upcoming_events_keywords sample_scraper (fixed_clock noon_jan_11)
              [leap_block; heat_block] 0%nat
              {| up_name := (premiere_prefix ++ "Heat")%string;
                 up_date := ymd2ord 2024 3 14;
                 up_keywords := ["Al Pacino"; "Robert De Niro"; "Heat"]
                                ++ fixed_keywords |})
    as (b & raw_title & Hb & Ht & Hn & _).
  - vm_compute. left. reflexivity.
  - exists b, raw_title. repeat split; assumption.
Defined.

Lemma days_before_month_table y m :
  1 <= m <= 12 ->
  let feb := if is_leap y then 29 else 28 in
  days_before_month y m =
    if m =? 1 then 0 else if m =? 2 then 31
    else feb + (if m =? 3 then 31 else if m =? 4 then 62 else if m =? 5 then 92
                else if m =? 6 then 123 else if m =? 7 then 153
                else if m =? 8 then 184 else if m =? 9 then 215
                else if m =? 10 then 245 else if m =? 11 then 276 else 306).
Proof.
  intros Hm.
  assert (Hcases : m = 1 \/ m = 2 \/ m = 3 \/ m = 4 \/ m = 5 \/ m = 6 \/ m = 7 \/
                   m = 8 \/ m = 9 \/ m = 10 \/ m = 11 \/ m = 12) by lia.
  unfold days_before_month, days_in_month.
  generalize (is_leap y). intros lp.
  repeat (destruct Hcases as [->|Hcases]); try subst m;
    destruct lp; vm_compute; reflexivity.
Qed.

(** The ordinal of a month and day that exist in 1900 lies within the
    year, and in a leap year it is not that of the 29th of February. *)
Lemma ymd2ord_within_year y m d :
  1 <= m <= 12 -> 1 <= d <= days_in_month 1900 m ->
  ymd2ord y 1 1 <= ymd2ord y m d <= ymd2ord y 12 31 /\
  (is_leap y = true -> ymd2ord y m d <> ymd2ord y 2 29).
Proof.
  intros Hm Hd. unfold ymd2ord.
  rewrite (days_before_month_table y m Hm).
  rewrite (days_before_month_table y 1), (days_before_month_table y 12),
    (days_before_month_table y 2) by lia.
  cbn [Z.eqb Pos.eqb].
  unfold days_in_month in Hd. rewrite is_leap_1900 in Hd.
  assert (Hcases : m = 1 \/ m = 2 \/ m = 3 \/ m = 4 \/ m = 5 \/ m = 6 \/ m = 7 \/
                   m = 8 \/ m = 9 \/ m = 10 \/ m = 11 \/ m = 12) by lia.
  repeat (destruct Hcases as [->|Hcases]); try subst m;
    cbn in Hd |- *; destruct (is_leap y); split; try lia; intros; try lia;
    discriminate.
Qed.

(** The date of every extracted event lies in the year the clock showed
    when its block was read, whatever the date of the run, and is never
    the 29th of February, which the format reader refuses for want of
    a year. *)
Theorem fetch_upcoming_events_dates :
  forall sc clk blocks t ev,
    In ev (fst (fst (fetch_upcoming_events sc clk (Some blocks) t))) ->
    exists k,
      ymd2ord (year_of sc (clk k)) 1 1 <= up_date ev <= ymd2ord (year_of sc (clk k)) 12 31 /\
      (is_leap (year_of sc (clk k)) = true ->
       up_date ev <> ymd2ord (year_of sc (clk k)) 2 29).
Proof.
  intros sc clk blocks t ev Hin.
  unfold fetch_upcoming_events in Hin. cbn [fst] in Hin.
  apply fetch_upcoming_events_loop_origin in Hin.
  destruct Hin as [[]|(b & t0 & t1 & Hb & Hp)].
  apply parse_block_inv in Hp.
  destruct Hp as (heading & raw_title & m & d & _ & _ & _ & Hm & Hd & _ & ->).
  exists t0. cbn [up_date]. apply ymd2ord_within_year; assumption.
Qed.

Lemma fetch_upcoming_events_dates_witness :
  exists k,
    ymd2ord (year_of sample_scraper (fixed_clock noon_jan_11 k)) 1 1 <= ymd2ord 2024 3 14
    <= ymd2ord (year_of sample_scraper (fixed_clock noon_jan_11 k)) 12 31.
Proof.
  destruct (fetch_upcoming_events_dates sample_scraper (fixed_clock noon_jan_11)
              [leap_block; heat_block] 0%nat
              {| up_name := (premiere_prefix ++ "Heat")%string;
                 up_date := ymd2ord 2024 3 14;
                 up_keywords := ["Al Pacino"; "Robert De Niro"; "Heat"]
                                ++ fixed_keywords |})
    as (k & Hk & _).
  - vm_compute. left. reflexivity.
  - exists k. exact Hk.
Defined.

(** While the clock stays in year [y], the body of the inner [try]
    yields what [block_event] says. *)
Lemma parse_block_block_event sc clk y b t :
  (forall k, year_of sc (clk k) = y) ->
  match fst (parse_block sc clk b t) with
  | Return (Some ev) => [ev]
  | _ => []
  end = block_event sc y b.
Proof.
  intros Hy.
  unfold parse_block, block_event, strptime_month_day, replace_year_date.
  destruct (blk_heading b) as [heading|]; [|reflexivity].
  destruct (strptime_B_d sc (strip sc heading)) as [[m d]|];
    [|destruct (blk_title b); reflexivity].
  rewrite (date_of_fields_spec 1900 m d).
  change (1 <=? 1900) with true. change (1900 <=? 9999) with true. cbn [andb].
  destruct (1 <=? m) eqn:E1; cbn [andb];
    [|rewrite !andb_false_r; cbn [andb]; destruct (blk_title b); reflexivity].
  destruct (m <=? 12) eqn:E2; cbn [andb];
    [|rewrite !andb_false_r; cbn [andb]; destruct (blk_title b); reflexivity].
  destruct (1 <=? d) eqn:E3; cbn [andb];
    [|rewrite !andb_false_r; cbn [andb]; destruct (blk_title b); reflexivity].
  destruct (d <=? days_in_month 1900 m) eqn:E4;
    [|rewrite !andb_false_r; destruct (blk_title b); reflexivity].
  assert (E5 : (d <=? days_in_month y m) = true).
  { apply Z.leb_le. apply Z.leb_le in E4.
    pose proof (days_in_month_1900_le y m). lia. }
  unfold bind at 1. cbv [ret]. unfold bind at 1. cbv [datetime_now].
  cbn [fst snd]. rewrite Hy, (date_of_fields_spec y m d), E1, E2, E3, E5.
  rewrite !andb_true_r.
  destruct ((1 <=? y) && (y <=? 9999));
    [|unfold bind, raise; destruct (blk_title b); reflexivity].
  unfold bind, ret, getattr, raise.
  destruct (blk_title b) as [raw_title|]; reflexivity.
Qed.

Lemma fetch_upcoming_events_step_events sc clk st b :
  sc_events (fetch_upcoming_events_step sc clk st b) =
  (sc_events st ++ match fst (parse_block sc clk b (sc_ticks st)) with
                   | Return (Some ev) => [ev]
                   | _ => []
                   end)%list.
Proof.
  unfold fetch_upcoming_events_step.
  destruct (parse_block sc clk b (sc_ticks st)) as [[[ev|]|e] t']; cbn;
    rewrite ?app_nil_r; reflexivity.
Qed.

(** Blocks are isolated from each other: a block that has no heading,
    whose heading is not a month and a day, or that has no title is
    skipped and the blocks after it are still read. While the clock
    stays in one year the result lists, in page order, what each block
    yields on its own. *)
Theorem fetch_upcoming_events_per_block :
  forall sc clk y blocks t,
    (forall k, year_of sc (clk k) = y) ->
    fst (fst (fetch_upcoming_events sc clk (Some blocks) t)) =
    flat_map (block_event sc y) blocks.
Proof.
  intros sc clk y blocks t Hy.
  unfold fetch_upcoming_events. cbn [fst].
  assert (Hloop : forall bs st,
             sc_events (fold_left (fetch_upcoming_events_step sc clk) bs st) =
             (sc_events st ++ flat_map (block_event sc y) bs)%list).
  { induction bs as [|b rest IH]; intros st.
    - cbn. rewrite app_nil_r. reflexivity.
    - cbn [fold_left flat_map]. rewrite IH, fetch_upcoming_events_step_events.
      rewrite (parse_block_block_event sc clk y b _ Hy), <- app_assoc. reflexivity. }
  rewrite Hloop. reflexivity.
Qed.

Lemma fetch_upcoming_events_per_block_witness :
  fst (fst (fetch_upcoming_events sample_scraper (fixed_clock noon_jan_11)
              (Some [leap_block; untitled_block; heat_block]) 0)) =
  [{| up_name := (premiere_prefix ++ "Heat")%string;
      up_date := 738959;
      up_keywords := ["Al Pacino"; "Robert De Niro"; "Heat"] ++ fixed_keywords |}].
Proof.
  rewrite (fetch_upcoming_events_per_block sample_scraper (fixed_clock noon_jan_11) 2024
             [leap_block; untitled_block; heat_block] 0%nat (fun _ => eq_refl)).
  vm_compute. reflexivity.
Defined.

(** ** Further properties of the relevance matcher *)

Lemma contains_empty s : PyStr.contains EmptyString s = true.
Proof. destruct s; cbn; rewrite ?prefix_empty; reflexivity. Qed.

Lemma event_is_relevant_monotone lower text pre post event :
  lower (pre ++ text ++ post) = (lower pre ++ lower text ++ lower post)%string ->
  event_is_relevant lower text event = true ->
  event_is_relevant lower (pre ++ text ++ post) event = true.
Proof.
  intros Hsplit. unfold event_is_relevant. rewrite !existsb_exists.
  intros (kw & Hin & Hk). exists kw. split; [exact Hin|].
  apply keyword_occurs_spec in Hk. apply keyword_occurs_spec.
  destruct Hk as (p & q & Hk). unfold occurs_lowered.
  exists (lower pre ++ p)%string, (q ++ lower post)%string.
  rewrite Hsplit, Hk, !append_assoc. reflexivity.
Qed.

(** Where lower-casing splits along a concatenation, as it does on ASCII
    text, text added around a text loses no match: every event returned
    for the text is returned for the longer text. *)
Theorem get_relevant_events_monotone :
  forall lower today_events text pre post r,
    lower (pre ++ text ++ post) = (lower pre ++ lower text ++ lower post)%string ->
    In r (get_relevant_events lower today_events text) ->
    In r (get_relevant_events lower today_events (pre ++ text ++ post)).
Proof.
  intros lower today_events text pre post r Hsplit.
  rewrite !get_relevant_events_filter, !in_map_iff.
  intros (e & He & Hin). exists e. split; [exact He|].
  apply filter_In in Hin. apply filter_In. destruct Hin as [Hin Hrel].
  split; [exact Hin | apply event_is_relevant_monotone; assumption].
Qed.

Lemma get_relevant_events_monotone_witness :
  In (relevant_dict hanks_event)
     (get_relevant_events PyLower.py_lower [hanks_event]
        ("Breaking: " ++ "TOM HANKS" ++ " visits")).
Proof.
  refine (get_relevant_events_monotone PyLower.py_lower [hanks_event] "TOM HANKS"
            "Breaking: " " visits" (relevant_dict hanks_event) _ _).
  - vm_compute. reflexivity.
  - vm_compute. left. reflexivity.
Defined.

(** Without that condition a match can be lost: the keyword alpha,
    final sigma is found in the text capital alpha, capital sigma and
    not in that text followed by a capital alpha, where the sigma is no
    longer final. *)
Example longer_text_loses_match :
  let ev := {| ev_id := 8; ev_name := "Premiere: As"; ev_date := 738896;
               ev_keywords := "ας" |} in
  get_relevant_events PyLower.py_lower [ev] "ΑΣ" = [relevant_dict ev] /\
  get_relevant_events PyLower.py_lower [ev] ("ΑΣ" ++ "Α") = [].
Proof. split; vm_compute; reflexivity. Qed.

(** An event one of whose comma-separated keywords is empty (an empty
    keyword column, a leading, trailing or doubled comma) is returned
    for every article text, the lower-casing being any function that,
    like [str.lower], maps the empty text to the empty text. *)
Theorem empty_keyword_matches_everything :
  forall lower today_events event text,
    lower EmptyString = EmptyString ->
    has_empty_keyword event = true ->
    In event today_events ->
    In (relevant_dict event) (get_relevant_events lower today_events text).
Proof.
  intros lower today_events event text Hl Hempty Hin.
  rewrite get_relevant_events_filter. apply in_map. apply filter_In.
  split; [exact Hin|].
  unfold has_empty_keyword in Hempty. unfold event_is_relevant.
  apply existsb_exists in Hempty. apply existsb_exists.
  destruct Hempty as (kw & Hkw & He). exists kw. split; [exact Hkw|].
  destruct kw; [|discriminate]. unfold keyword_occurs. rewrite Hl.
  apply contains_empty.
Qed.

Lemma empty_keyword_matches_everything_witness :
  In (relevant_dict {| ev_id := 4; ev_name := "Premiere: Ran"; ev_date := 738896;
                       ev_keywords := "Ran,premiere," |})
     (get_relevant_events PyLower.py_lower
        [hanks_event;
         {| ev_id := 4; ev_name := "Premiere: Ran"; ev_date := 738896;
            ev_keywords := "Ran,premiere," |}]
        "Weather report").
Proof.
  refine (empty_keyword_matches_everything PyLower.py_lower _ _ "Weather report" _ _ _).
  - reflexivity.
  - reflexivity.
  - right. left. reflexivity.
Defined.

Lemma split_no_sep sep s :
  mentions sep s = false -> PyStr.split sep s = [s].
Proof.
  induction s as [|c s IH]; cbn; [reflexivity|].
  intros H. apply orb_false_iff in H. destruct H as [Hc Hs].
  rewrite Ascii.eqb_sym, Hc, (IH Hs). reflexivity.
Qed.

Lemma split_app_sep sep a b :
  mentions sep a = false ->
  PyStr.split sep (a ++ String sep b) = a :: PyStr.split sep b.
Proof.
  induction a as [|c a IH]; cbn.
  - intros _. rewrite Ascii.eqb_refl. reflexivity.
  - intros H. apply orb_false_iff in H. destruct H as [Hc Ha].
    rewrite Ascii.eqb_sym, Hc, (IH Ha). reflexivity.
Qed.

Lemma split_join sep kws :
  kws <> [] ->
  Forall (fun k => mentions sep k = false) kws ->
  PyStr.split sep (PyStr.join (String sep EmptyString) kws) = kws.
Proof.
  intros Hne Hall. induction Hall as [|k rest Hk Hrest IH]; [contradiction|].
  destruct rest as [|k2 rest'].
  - cbn. apply split_no_sep. exact Hk.
  - cbn [PyStr.join]. cbn [append].
    rewrite (split_app_sep sep k _ Hk). f_equal. apply IH. discriminate.
Qed.

(** The keywords the matcher reads from a stored event are never an
    empty list, and they are the keywords that were joined into the
    keyword column provided there was at least one and none of them
    contains a comma. *)
Theorem event_keywords_round_trip :
  forall event keywords,
    keywords <> [] ->
    Forall (fun k => mentions "," k = false) keywords ->
    ev_keywords event = PyStr.join "," keywords ->
    event_keywords event = keywords /\ event_keywords event <> [].
Proof.
  intros event keywords Hne Hall Hkw. split.
  - unfold event_keywords. rewrite Hkw. apply split_join; assumption.
  - apply split_nonempty.
Qed.

Lemma event_keywords_round_trip_witness :
  event_keywords hanks_event = ["Tom Hanks"; "Here"; "premiere"].
Proof.
  refine (proj1 (event_keywords_round_trip hanks_event ["Tom Hanks"; "Here"; "premiere"]
            _ _ eq_refl)).
  - discriminate.
  - repeat constructor.
Defined.

(** ** Further properties of [publish_to_telegram] *)

Lemma try_send_message_inv env attempt channel_id message mid d :
  try_send_message env attempt channel_id message = InnerSent mid d ->
  d = Message channel_id message.
Proof.
  unfold try_send_message.
  destruct (send_message env attempt channel_id message); intros H; inversion H.
  reflexivity.
Qed.

(** What a delivery of [send_article] looks like. *)
Lemma send_article_inv env article channel_id message mid d :
  send_article env article channel_id message = Some (mid, d) ->
  d = Message channel_id message \/
  exists photo,
    d = Photo channel_id photo message /\
    art_image_url article = Some photo /\
    PyStr.truthy (art_image_url article) = true /\
    requests_head env photo = HeadStatus 200.
Proof.
  unfold send_article.
  destruct (PyStr.truthy (art_image_url article)) eqn:Htruthy.
  - destruct (art_image_url article) as [url|] eqn:Hurl; [|discriminate Htruthy].
    cbn [get_or_empty].
    destruct (requests_head env url) as [code| |] eqn:Hhead.
    + destruct (code =? 200) eqn:Hcode.
      * apply Z.eqb_eq in Hcode. subst code.
        unfold try_send_photo.
        destruct (send_photo env channel_id url message) as [m| |].
        -- intros H. inversion H; subst. right. exists url. auto.
        -- destruct (try_send_message env 0 channel_id message) as [m d0| |] eqn:Ht;
             intros H; inversion H; subst.
           left. eapply try_send_message_inv. exact Ht.
        -- discriminate.
      * destruct (try_send_message env 0 channel_id message) as [m d0|k|] eqn:Ht.
        -- intros H. inversion H; subst. left. eapply try_send_message_inv. exact Ht.
        -- destruct (try_send_message env k channel_id message) as [m d0| |] eqn:Ht2;
             intros H; inversion H; subst.
           left. eapply try_send_message_inv. exact Ht2.
        -- discriminate.
    + destruct (try_send_message env 0 channel_id message) as [m d0| |] eqn:Ht;
        intros H; inversion H; subst.
      left. eapply try_send_message_inv. exact Ht.
    + discriminate.
  - destruct (try_send_message env 0 channel_id message) as [m d0| |] eqn:Ht;
      intros H; inversion H; subst.
    left. eapply try_send_message_inv. exact Ht.
Qed.

Lemma publish_delivery_send env article channel_id st d :
  pub_delivery (publish_to_telegram env article channel_id st) = Some d ->
  exists mid,
    send_article env article channel_id (format_message article) = Some (mid, d).
Proof.
  unfold publish_to_telegram.
  destruct (send_article env article channel_id (format_message article))
    as [[mid d0]|]; [|discriminate].
  destruct (log_post_stats_raises env);
    [|destruct (add_published_article_raises env)];
    cbn; intros H; inversion H; subst; eauto.
Qed.

(** Whatever reaches the channel is the formatted message of the
    article, sent to the requested channel; it goes out as a photo only
    if the article has an image reference that answered the check with
    status 200, and the photo is that reference. *)
Theorem publish_delivers_formatted_message :
  forall env article channel_id st d,
    pub_delivery (publish_to_telegram env article channel_id st) = Some d ->
    delivery_body d = format_message article /\
    delivery_channel d = channel_id /\
    (forall ch photo caption,
       d = Photo ch photo caption ->
       art_image_url article = Some photo /\
       PyStr.truthy (art_image_url article) = true /\
       requests_head env photo = HeadStatus 200).
Proof.
  intros env article channel_id st d Hd.
  apply publish_delivery_send in Hd. destruct Hd as [mid Hsend].
  apply send_article_inv in Hsend.
  destruct Hsend as [->|(photo & -> & Hurl & Htruthy & Hhead)]; cbn.
  - split; [reflexivity|]. split; [reflexivity|].
    intros ch photo caption H. discriminate H.
  - split; [reflexivity|]. split; [reflexivity|].
    intros ch photo0 caption H. inversion H; subst. auto.
Qed.

Lemma publish_delivers_formatted_message_witness :
  delivery_body (Photo "@channel" "http://example.com/a.jpg" (format_message sample_article))
  = format_message sample_article.
Proof.
  refine (proj1 (publish_delivers_formatted_message env_ok sample_article "@channel"
            empty_store _ _)).
  vm_compute. reflexivity.
Defined.

(** An article whose image cannot be used, because the check fails on
    the network or answers another status than 200, is still published,
    as a plain message without the image. *)
Theorem publish_without_unusable_image :
  forall env article channel_id st mid,
    PyStr.truthy (art_image_url article) = true ->
    requests_head env (get_or_empty (art_image_url article)) = HeadRequestException \/
    (exists status_code,
       requests_head env (get_or_empty (art_image_url article)) = HeadStatus status_code /\
       status_code <> 200) ->
    send_message env 0 channel_id (format_message article) = Sent mid ->
    log_post_stats_raises env = false ->
    add_published_article_raises env = false ->
    pub_result (publish_to_telegram env article channel_id st) = Some mid /\
    pub_delivery (publish_to_telegram env article channel_id st) =
      Some (Message channel_id (format_message article)).
Proof.
  intros env article channel_id st mid Htruthy Hhead Hsend Hstats Hrec.
  assert (Hs : send_article env article channel_id (format_message article) =
               Some (mid, Message channel_id (format_message article))).
  { unfold send_article. rewrite Htruthy.
    destruct Hhead as [Hhead|(code & Hhead & Hcode)]; rewrite Hhead.
    - unfold try_send_message. rewrite Hsend. reflexivity.
    - apply Z.eqb_neq in Hcode. rewrite Hcode.
      unfold try_send_message. rewrite Hsend. reflexivity. }
  unfold publish_to_telegram. rewrite Hs, Hstats, Hrec. split; reflexivity.
Qed.

Lemma publish_without_unusable_image_witness :
  pub_result (publish_to_telegram env_head_fails sample_article "@channel" empty_store)
  = Some 502.
Proof.
  refine (proj1 (publish_without_unusable_image env_head_fails sample_article "@channel"
            empty_store 502 eq_refl _ eq_refl eq_refl eq_refl)).
  left. reflexivity.
Defined.

Lemma log_post_stats_published message_id post_time st i :
  is_article_published (log_post_stats message_id post_time st) i =
  is_article_published st i.
Proof. reflexivity. Qed.

(** A message can be in the channel while [publish_to_telegram] returns
    [None]: when the send succeeds and one of the two store calls
    raises, the delivery stands, nothing is returned, and no identifier
    becomes published, so the filter will accept the article again. *)
Theorem publish_delivered_but_unrecorded :
  forall env article channel_id st mid d,
    send_article env article channel_id (format_message article) = Some (mid, d) ->
    log_post_stats_raises env = true \/ add_published_article_raises env = true ->
    pub_result (publish_to_telegram env article channel_id st) = None /\
    pub_delivery (publish_to_telegram env article channel_id st) = Some d /\
    (forall i,
       is_article_published (pub_store (publish_to_telegram env article channel_id st)) i =
       is_article_published st i) /\
    (forall norm clk feed_url entry t,
       screen norm clk (pub_store (publish_to_telegram env article channel_id st))
              feed_url entry t =
       screen norm clk st feed_url entry t).
Proof.
  intros env article channel_id st mid d Hsend Hraise.
  unfold publish_to_telegram. rewrite Hsend.
  destruct (log_post_stats_raises env) eqn:Hstats.
  - cbn. repeat split.
  - destruct Hraise as [Hraise|Hraise]; [discriminate|]. rewrite Hraise. cbn.
    repeat split.
Qed.

Lemma publish_delivered_but_unrecorded_witness :
  pub_result (publish_to_telegram env_record_fails sample_article "@channel" empty_store)
    = None /\
  pub_delivery (publish_to_telegram env_record_fails sample_article "@channel" empty_store)
    = Some (Photo "@channel" "http://example.com/a.jpg" (format_message sample_article)).
Proof.
  destruct (publish_delivered_but_unrecorded env_record_fails sample_article "@channel"
              empty_store 501
              (Photo "@channel" "http://example.com/a.jpg" (format_message sample_article))
              eq_refl (or_intror eq_refl)) as (Hr & Hd & _).
  split; assumption.
Defined.

Lemma add_published_article_lookup article_id title published_at st i :
  is_article_published (add_published_article article_id title published_at st) i =
  is_article_published st i || String.eqb article_id i.
Proof.
  unfold is_article_published, add_published_article. cbn [published_articles].
  rewrite existsb_app. cbn. rewrite orb_false_r. reflexivity.
Qed.

(** [publish_to_telegram] changes the published state of no other
    article, and never makes a published article unpublished. *)
Theorem publish_touches_one_identifier :
  forall env article channel_id st i,
    (i <> art_id article ->
     is_article_published (pub_store (publish_to_telegram env article channel_id st)) i =
     is_article_published st i) /\
    (is_article_published st i = true ->
     is_article_published (pub_store (publish_to_telegram env article channel_id st)) i = true).
Proof.
  intros env article channel_id st i. unfold publish_to_telegram.
  destruct (send_article env article channel_id (format_message article)) as [[mid d]|];
    [|split; auto].
  destruct (log_post_stats_raises env); [split; auto|].
  destruct (add_published_article_raises env); [split; auto|].
  cbn [pub_store]. rewrite add_published_article_lookup, log_post_stats_published.
  split.
  - intros Hne. destruct (String.eqb (art_id article) i) eqn:E.
    + apply String.eqb_eq in E. congruence.
    + apply orb_false_r.
  - intros H. rewrite H. reflexivity.
Qed.

Lemma publish_touches_one_identifier_witness :
  is_article_published
    (pub_store (publish_to_telegram env_ok sample_article "@channel" empty_store)) "guid-2"
  = is_article_published empty_store "guid-2".
Proof.
  refine (proj1 (publish_touches_one_identifier env_ok sample_article "@channel"
            empty_store "guid-2") _).
  discriminate.
Defined.

(** Publication and filter fit together: once [publish_to_telegram] has
    returned a message identifier, every entry that parses to an article
    with the same identifier is rejected as a duplicate, and no later
    [fetch_feed] returns such an article. *)
Theorem published_article_rejected_later :
  forall env article channel_id st mid,
    pub_result (publish_to_telegram env article channel_id st) = Some mid ->
    (forall norm clk feed_url entry t a plog t',
       parse_entry norm clk entry feed_url t = (Some a, plog, t') ->
       art_id a = art_id article ->
       screen norm clk (pub_store (publish_to_telegram env article channel_id st))
              feed_url entry t = Rejected duplicate) /\
    (forall norm clk n feed_url feed t a,
       In a (fst (fst (fetch_feed norm clk
                         (pub_store (publish_to_telegram env article channel_id st))
                         n feed_url feed t))) ->
       art_id a <> art_id article).
Proof.
  intros env article channel_id st mid Hres.
  assert (Hpub : is_article_published
                   (pub_store (publish_to_telegram env article channel_id st))
                   (art_id article) = true).
  { revert Hres. unfold publish_to_telegram.
    destruct (send_article env article channel_id (format_message article)) as [[m d]|];
      [|discriminate].
    destruct (log_post_stats_raises env); [discriminate|].
    destruct (add_published_article_raises env); [discriminate|].
    intros _. cbn [pub_store]. apply add_published_article_published. }
  split.
  - intros norm clk feed_url entry t a plog t' Hp Hid.
    unfold parse_entry in Hp. unfold screen.
    destruct (parse_entry_body norm clk entry feed_url t) as [[[b|]|e] t2];
      inversion Hp; subst. cbn. rewrite Hid, Hpub. reflexivity.
  - intros norm clk n feed_url feed t a Hin Hid.
    apply fetch_feed_articles_origin in Hin. destruct Hin as (_ & Hun & _).
    rewrite Hid, Hpub in Hun. discriminate.
Qed.

Lemma published_article_rejected_later_witness :
  screen plain_normalizer (fixed_clock noon_jan_11)
    (pub_store (publish_to_telegram env_ok sample_article "@channel" empty_store))
    "feed" (sample_entry (Some jan_11_2024)) 0 = Rejected duplicate.
Proof.
  refine (proj1 (published_article_rejected_later env_ok sample_article "@channel"
            empty_store 501 eq_refl)
            plain_normalizer (fixed_clock noon_jan_11) "feed"
            (sample_entry (Some jan_11_2024)) 0%nat _ _ _ eq_refl eq_refl).
Defined.

(** ** [create_article_keyboard] *)

(** The callback data of a keyboard tell the article and the reaction:
    the two data of one keyboard differ, and a datum that two keyboards
    share makes them keyboards of the same article identifier. The first
    row is the link to the article. *)
Theorem keyboard_callback_data_identify :
  forall a b data,
    In data (callback_data_of (create_article_keyboard a)) ->
    In data (callback_data_of (create_article_keyboard b)) ->
    art_id a = art_id b /\
    NoDup (callback_data_of (create_article_keyboard a)) /\
    hd_error (create_article_keyboard a) =
      Some [UrlButton "Читать полностью" (art_link a)].
Proof.
  intros a b data Ha Hb. cbn in Ha, Hb.
  split; [|split].
  - destruct Ha as [Ha|[Ha|[]]]; destruct Hb as [Hb|[Hb|[]]]; subst data;
      inversion Hb; reflexivity.
  - cbn. constructor.
    + intros [H|[]]. inversion H.
    + constructor; [intros [] | constructor].
  - reflexivity.
Qed.

Lemma keyboard_callback_data_identify_witness :
  NoDup (callback_data_of (create_article_keyboard sample_article)).
Proof.
  refine (proj1 (proj2 (keyboard_callback_data_identify sample_article sample_article
            "like_guid-1" _ _))).
  - left. reflexivity.
  - left. reflexivity.
Defined.
